(** * Cookie Privacy Guard: a shallow embedding of the background worker,
    the popup and the content script, and the properties of its
    classifier, risk scorer, history ledger, permission store,
    reconciliation engine and message handler. *)

From Stdlib Require Import ZArith Bool List String Ascii Lia.
Import ListNotations.
Open Scope string_scope.

(* ================================================================= *)
(** ** JavaScript string primitives used by the extension              *)
(* ================================================================= *)

(** [String.prototype.toLowerCase] on ASCII text. *)
Definition lower_ascii (c : ascii) : ascii :=
  let n := nat_of_ascii c in
  if (65 <=? n)%nat && (n <=? 90)%nat then ascii_of_nat (n + 32) else c.

Fixpoint toLowerCase (s : string) : string :=
  match s with
  | EmptyString => EmptyString
  | String c s' => String (lower_ascii c) (toLowerCase s')
  end.

(** [s.startsWith(p)] *)
Fixpoint startsWith (s p : string) : bool :=
  match p, s with
  | EmptyString, _ => true
  | String c p', String d s' => Ascii.eqb c d && startsWith s' p'
  | String _ _, EmptyString => false
  end.

(** [s.includes(p)] *)
Fixpoint includes (s p : string) : bool :=
  startsWith s p ||
  match s with
  | EmptyString => false
  | String _ s' => includes s' p
  end.

(** [s.endsWith(p)] *)
Definition endsWith (s p : string) : bool :=
  let n := String.length s in
  let m := String.length p in
  (m <=? n)%nat && String.eqb (substring (n - m) m s) p.

(** [s.replace(/^\./, '')] *)
Definition stripLeadingDot (s : string) : string :=
  match s with
  | String c s' => if Ascii.eqb c "." then s' else s
  | EmptyString => EmptyString
  end.

(** JavaScript truthiness of a string. *)
Definition truthy_str (s : string) : bool := negb (String.eqb s "").

(** [[...new Set(xs)]]: first occurrences, in order. *)
Definition setOfList (xs : list string) : list string :=
  fold_left (fun acc x => if existsb (String.eqb x) acc then acc else (acc ++ [x])%list)
    xs [].

(* ================================================================= *)
(** ** Cookies                                                         *)
(* ================================================================= *)

(** A browser cookie as delivered by [chrome.cookies]. The expiration date
    is in whole epoch seconds; [None] is a session cookie. *)
Record Cookie := mkCookie {
  name : string;
  domain : string;
  value : string;
  path : string;
  secure : bool;
  httpOnly : bool;
  sameSite : string;
  expirationDate : option Z
}.

(** [`${cookie.name}_${cookie.domain}`], the history / identity key. *)
Definition cookieKey (c : Cookie) : string := name c ++ "_" ++ domain c.

(** [`cookie_${cookie.name}_${cookie.domain}`], the permission key. *)
Definition permissionKey (c : Cookie) : string := "cookie_" ++ cookieKey c.

(* ================================================================= *)
(** ** Classifiers ([detectPotentialData])                             *)
(* ================================================================= *)

(** The closed vocabulary of data categories. *)
Definition vocabulary : list string :=
  ["email"; "name"; "location"; "device_info"; "ip_address";
   "browsing_behavior"; "preferences"; "session_data"; "marketing_data";
   "social_media_data"; "shopping_data"; "demographic_data"].

(** The loop over [Object.entries(dataPatterns)] followed by
    [[...new Set(dataTypes)]]. *)
Definition classifyText (dataPatterns : list (string * list string))
    (cookieStr : string) : list string :=
  let dataTypes :=
    fold_left (fun acc '(dataType, patterns) =>
                 if existsb (includes cookieStr) patterns
                 then (acc ++ [dataType])%list else acc)
      dataPatterns [] in
  setOfList dataTypes.

(** [dataPatterns] of background.js. *)
Definition dataPatterns_background : list (string * list string) :=
  [("email", ["email"; "mail"; "@"]);
   ("name", ["name"; "user"; "username"; "fullname"; "firstname"; "lastname"]);
   ("location", ["location"; "geo"; "lat"; "long"; "gps"; "address"; "city";
                 "country"; "zip"]);
   ("device_info", ["device"; "os"; "browser"; "platform"; "useragent";
                    "screen"; "resolution"; "mobile"]);
   ("ip_address", ["ip"; "address"; "remoteaddr"; "clientip"]);
   ("browsing_behavior", ["behavior"; "click"; "scroll"; "movement";
                          "activity"; "history"; "visit"; "visitor"]);
   ("preferences", ["preference"; "setting"; "config"; "theme"; "language";
                    "currency"; "pref"]);
   ("session_data", ["session"; "login"; "token"; "auth"; "password";
                     "credential"; "sid"]);
   ("marketing_data", ["ad"; "marketing"; "campaign"; "tracking";
                       "analytics"; "conversion"]);
   ("social_media_data", ["social"; "facebook"; "twitter"; "linkedin";
                          "instagram"; "google"; "youtube"]);
   ("shopping_data", ["cart"; "basket"; "purchase"; "product"; "item";
                      "price"]);
   ("demographic_data", ["age"; "gender"; "birth"; "income"; "education";
                         "demographic"])].

(** [dataPatterns] of popup.js. *)
Definition dataPatterns_popup : list (string * list string) :=
  [("email", ["email"; "@"; "mail"]);
   ("name", ["name"; "user"; "username"; "fullname"]);
   ("location", ["location"; "geo"; "lat"; "long"; "gps"; "address"]);
   ("device_info", ["device"; "os"; "browser"; "platform"; "useragent"]);
   ("ip_address", ["ip"; "address"]);
   ("browsing_behavior", ["behavior"; "click"; "scroll"; "movement";
                          "activity"]);
   ("preferences", ["preference"; "setting"; "config"; "theme"]);
   ("session_data", ["session"; "login"; "token"; "auth"]);
   ("marketing_data", ["ad"; "marketing"; "campaign"; "tracking";
                       "analytics"]);
   ("social_media_data", ["social"; "facebook"; "twitter"; "linkedin";
                          "instagram"; "google"])].

(** [dataPatterns] of the content script. *)
Definition dataPatterns_content : list (string * list string) :=
  [("email", ["email"; "mail"; "@"]);
   ("name", ["name"; "user"; "username"; "fullname"; "firstname"; "lastname"]);
   ("location", ["location"; "geo"; "lat"; "long"; "gps"; "address"; "city";
                 "country"; "zip"]);
   ("device_info", ["device"; "os"; "browser"; "platform"; "useragent";
                    "screen"; "resolution"; "mobile"]);
   ("ip_address", ["ip"; "address"; "remoteaddr"; "clientip"]);
   ("browsing_behavior", ["behavior"; "click"; "scroll"; "movement";
                          "activity"; "history"; "visit"]);
   ("preferences", ["preference"; "setting"; "config"; "theme"; "language";
                    "currency"]);
   ("session_data", ["session"; "login"; "token"; "auth"; "password";
                     "credential"]);
   ("marketing_data", ["ad"; "marketing"; "campaign"; "tracking";
                       "analytics"; "conversion"]);
   ("social_media_data", ["social"; "facebook"; "twitter"; "linkedin";
                          "instagram"; "google"; "youtube"]);
   ("shopping_data", ["cart"; "basket"; "purchase"; "product"; "item";
                      "price"]);
   ("demographic_data", ["age"; "gender"; "birth"; "income"; "education"])].

(** A cookie value as seen by a classifier: [None] is an absent
    ([undefined]) value. *)
Definition jsValueString (v : option string) : string :=
  match v with Some s => s | None => "undefined" end.

(** background.js: [(cookie.name + '=' + (cookie.value || '')).toLowerCase()] *)
Definition detectPotentialData_background (nm : string) (v : option string)
  : list string :=
  let val := match v with Some s => if truthy_str s then s else "" | None => "" end in
  classifyText dataPatterns_background (toLowerCase (nm ++ "=" ++ val)).

(** popup.js: [(cookie.name + '=' + cookie.value).toLowerCase()] *)
Definition detectPotentialData_popup (nm : string) (v : option string)
  : list string :=
  classifyText dataPatterns_popup (toLowerCase (nm ++ "=" ++ jsValueString v)).

(** content script: [(cookie.name + '=' + cookie.value).toLowerCase()] *)
Definition detectPotentialData_content (nm : string) (v : option string)
  : list string :=
  classifyText dataPatterns_content (toLowerCase (nm ++ "=" ++ jsValueString v)).

Definition detectPotentialData (c : Cookie) : list string :=
  detectPotentialData_background (name c) (Some (value c)).

(* ================================================================= *)
(** ** Risk scorer ([calculateRiskScore], [isSameDomain])              *)
(* ================================================================= *)

Definition normalizeDomain (d : string) : string :=
  toLowerCase (stripLeadingDot d).

Definition isSameDomain (cookieDomain currentDomain : string) : bool :=
  let normCookieDomain := normalizeDomain cookieDomain in
  let normCurrentDomain := normalizeDomain currentDomain in
  endsWith normCurrentDomain normCookieDomain
  || endsWith normCookieDomain normCurrentDomain.

Definition trackingPatterns : list string :=
  ["_ga"; "_gid"; "_fbp"; "fr"; "track"; "uid"; "analytics"; "ad"; "pixel"].

(** [cookie.expirationDate && cookie.expirationDate > (Date.now() / 1000) +
    31536000], with [now] in milliseconds and the comparison multiplied
    out by 1000. *)
Definition longLived (now : Z) (exp : option Z) : bool :=
  match exp with
  | Some e => negb (e =? 0)%Z && (now + 31536000000 <? 1000 * e)%Z
  | None => false
  end.

(** [calculateRiskScore(cookie, potentialData)] reading the global
    [activeTabDomain] and [Date.now()]. *)
Definition calculateRiskScore (activeTabDomain : string) (now : Z)
    (cookie : Cookie) (potentialData : option (list string)) : Z :=
  let score := 0%Z in
  let dataTypes :=
    match potentialData with Some d => d | None => detectPotentialData cookie end in
  let score := (score + Z.of_nat (List.length dataTypes))%Z in
  let cookieStr := toLowerCase (name cookie ++ value cookie) in
  let score :=
    fold_left (fun score pattern =>
                 if includes cookieStr pattern then (score + 1)%Z else score)
      trackingPatterns score in
  let score :=
    if truthy_str activeTabDomain
       && negb (isSameDomain (domain cookie) activeTabDomain)
    then (score + 2)%Z else score in
  let score := if longLived now (expirationDate cookie) then (score + 1)%Z else score in
  let score :=
    if negb (secure cookie) && truthy_str (domain cookie)
       && negb (startsWith (domain cookie) "http")
    then (score + 1)%Z else score in
  score.

(* ================================================================= *)
(** ** JavaScript [Map] / storage objects with string keys              *)
(* ================================================================= *)

(** A [Map] (or a plain object used as a map) as the list of its entries
    in insertion order. *)
Definition JsMap (V : Type) := list (string * V).

Fixpoint map_get {V} (k : string) (m : JsMap V) : option V :=
  match m with
  | [] => None
  | (k', v) :: m' => if String.eqb k k' then Some v else map_get k m'
  end.

Definition map_has {V} (k : string) (m : JsMap V) : bool :=
  match map_get k m with Some _ => true | None => false end.

(** [m.set(k, v)]: an existing key keeps its position, a new key is
    appended. *)
Fixpoint map_set {V} (k : string) (v : V) (m : JsMap V) : JsMap V :=
  match m with
  | [] => [(k, v)]
  | (k', v') :: m' =>
      if String.eqb k k' then (k', v) :: m' else (k', v') :: map_set k v m'
  end.

(** [m.delete(k)] *)
Fixpoint map_delete {V} (k : string) (m : JsMap V) : JsMap V :=
  match m with
  | [] => []
  | (k', v') :: m' =>
      if String.eqb k k' then map_delete k m' else (k', v') :: map_delete k m'
  end.

(** A [Set] of strings: [add] and [has] over its elements. *)
Definition set_add (k : string) (s : list string) : list string :=
  if existsb (String.eqb k) s then s else (s ++ [k])%list.

Definition set_has (k : string) (s : list string) : bool :=
  existsb (String.eqb k) s.

(* ================================================================= *)
(** ** History ledger ([cookieHistory])                                 *)
(* ================================================================= *)

Inductive Status := active | blocked | removed.

Definition Status_eqb (a b : Status) : bool :=
  match a, b with
  | active, active | blocked, blocked | removed, removed => true
  | _, _ => false
  end.

(** A history entry: the spread cookie, the classification and score, the
    timestamps and the status, and the optional fields written by the
    block / removal / permission paths. *)
Record HistoryEntry := mkEntry {
  h_cookie : Cookie;
  potentialData : list string;
  riskScore : Z;
  firstSeen : Z;
  lastSeen : Z;
  status : Status;
  blockedAt : option Z;
  removedAt : option Z;
  autoBlocked : option bool;
  userAction : option string;
  h_allowedDataTypes : option (list string)
}.

Definition set_status (s : Status) (e : HistoryEntry) : HistoryEntry :=
  {| h_cookie := h_cookie e; potentialData := potentialData e;
     riskScore := riskScore e; firstSeen := firstSeen e; lastSeen := lastSeen e;
     status := s; blockedAt := blockedAt e; removedAt := removedAt e;
     autoBlocked := autoBlocked e; userAction := userAction e;
     h_allowedDataTypes := h_allowedDataTypes e |}.

Definition set_lastSeen (t : Z) (e : HistoryEntry) : HistoryEntry :=
  {| h_cookie := h_cookie e; potentialData := potentialData e;
     riskScore := riskScore e; firstSeen := firstSeen e; lastSeen := t;
     status := status e; blockedAt := blockedAt e; removedAt := removedAt e;
     autoBlocked := autoBlocked e; userAction := userAction e;
     h_allowedDataTypes := h_allowedDataTypes e |}.

Definition Ledger := JsMap HistoryEntry.

(** The upsert of the [cookies.onChanged] listener (lines 174-183) and of
    [scanExistingCookies] (lines 358-367):
    [cookieHistory.set(cookieKey, {...cookie, potentialData, riskScore,
     firstSeen: has ? get.firstSeen : Date.now(), lastSeen: Date.now(),
     status: 'active'})]. *)
Definition recordSighting (now : Z) (h : Ledger) (cookie : Cookie)
    (pd : list string) (score : Z) : Ledger :=
  let k := cookieKey cookie in
  map_set k
    {| h_cookie := cookie; potentialData := pd; riskScore := score;
       firstSeen := match map_get k h with Some e => firstSeen e | None => now end;
       lastSeen := now; status := active; blockedAt := None; removedAt := None;
       autoBlocked := None; userAction := None; h_allowedDataTypes := None |} h.

(** The [removed] branch of the [cookies.onChanged] listener
    (lines 205-214). *)
Definition recordRemoval (now : Z) (h : Ledger) (cookie : Cookie) : Ledger :=
  let k := cookieKey cookie in
  match map_get k h with
  | Some e =>
      if Status_eqb (status e) active then
        map_set k
          {| h_cookie := h_cookie e; potentialData := potentialData e;
             riskScore := riskScore e; firstSeen := firstSeen e;
             lastSeen := lastSeen e; status := removed;
             blockedAt := blockedAt e; removedAt := Some now;
             autoBlocked := autoBlocked e; userAction := userAction e;
             h_allowedDataTypes := h_allowedDataTypes e |} h
      else h
  | None => h
  end.

(* ================================================================= *)
(** ** Permission store ([chrome.storage.sync])                         *)
(* ================================================================= *)

Record Permission := mkPermission {
  allowedDataTypes : list string;
  action : string;
  timestamp : Z;
  cookieName : string;
  cookieDomain : string;
  p_autoBlocked : option bool;
  p_blocked : bool;
  p_potentialData : list string
}.

(** A value of the sync storage: a permission record under a [cookie_]
    key, or a user setting. *)
Inductive SyncValue :=
  | SPermission (p : Permission)
  | SSetting (b : bool).

Definition SyncStore := JsMap SyncValue.

Definition getPermission (k : string) (st : SyncStore) : option Permission :=
  match map_get k st with Some (SPermission p) => Some p | _ => None end.

(** [action === 'block' || (action === 'custom' && allowedDataTypes.length === 0)] *)
Definition isBlocking (action : string) (allowed : list string) : bool :=
  String.eqb action "block"
  || String.eqb action "custom" && Nat.eqb (List.length allowed) 0.

(** The write of [handleCookiePermissionsUpdate] (lines 413-428). The
    cookie's [potentialData] field (absent on a plain cookie) is passed
    as [pd]. *)
Definition permissionsUpdateWrite (now : Z) (st : SyncStore) (cookie : Cookie)
    (pd : list string) (allowed : list string) (act : string) : SyncStore :=
  let isBlocking := isBlocking act allowed in
  map_set (permissionKey cookie)
    (SPermission {| allowedDataTypes := allowed; action := act;
                    timestamp := now; cookieName := name cookie;
                    cookieDomain := domain cookie; p_autoBlocked := None;
                    p_blocked := isBlocking; p_potentialData := pd |}) st.

(** The auto-block write of [scanExistingCookies] (lines 387-399). *)
Definition autoBlockWrite (now : Z) (st : SyncStore) (cookie : Cookie)
    (pd : list string) : SyncStore :=
  map_set (permissionKey cookie)
    (SPermission {| allowedDataTypes := []; action := "block";
                    timestamp := now; cookieName := name cookie;
                    cookieDomain := domain cookie; p_autoBlocked := Some true;
                    p_blocked := true; p_potentialData := pd |}) st.

(** [handleUnblock] of the popup: [chrome.storage.sync.remove([key])]. *)
Definition permissionRemove (st : SyncStore) (cookie : Cookie) : SyncStore :=
  map_delete (permissionKey cookie) st.

(** The cached flag agrees with its recomputation, for every permission
    record of the store. *)
Definition permissionConsistent (p : Permission) : bool :=
  Bool.eqb (p_blocked p) (isBlocking (action p) (allowedDataTypes p)).

Definition storeConsistent (st : SyncStore) : bool :=
  forallb (fun '(_, v) =>
             match v with SPermission p => permissionConsistent p | SSetting _ => true end)
    st.

(* ================================================================= *)
(** ** Aggregate stats of the background ([updateCookieStats])          *)
(* ================================================================= *)

Record Stats := mkStats {
  total : nat;
  suspicious : nat;
  blocked_count : nat;
  allowed : nat
}.

(** [permission.action === 'allow' ||
     (permission.action === 'custom' && permission.allowedDataTypes.length > 0)] *)
Definition countsAsAllowed (p : option Permission) : bool :=
  match p with
  | Some p =>
      String.eqb (action p) "allow"
      || String.eqb (action p) "custom"
         && negb (Nat.eqb (List.length (allowedDataTypes p)) 0)
  | None => false
  end.

(** [hostname.includes(cookieDomain) || cookieDomain.includes(hostname)]
    with [cookieDomain = historyEntry.domain.replace(/^\./, '')]. *)
Definition relatedToSite (hostname : string) (e : HistoryEntry) : bool :=
  let cookieDomain := stripLeadingDot (domain (h_cookie e)) in
  includes hostname cookieDomain || includes cookieDomain hostname.

(** [allPermissions[permissionKey] && allPermissions[permissionKey].blocked] *)
Definition blockedByPermission (allPermissions : SyncStore) (e : HistoryEntry) : bool :=
  match getPermission (permissionKey (h_cookie e)) allPermissions with
  | Some p => p_blocked p
  | None => false
  end.

(** The loop over the live cookies (lines 495-515): accumulates
    [allCookieKeys], [suspiciousCount] and [allowedCount]. *)
Definition statsLiveStep (activeTabDomain : string) (now : Z)
    (allPermissions : SyncStore)
    (acc : list string * nat * nat) (cookie : Cookie) : list string * nat * nat :=
  let '(keys, susp, allow) := acc in
  let keys := set_add (cookieKey cookie) keys in
  let pd := detectPotentialData cookie in
  let score := calculateRiskScore activeTabDomain now cookie (Some pd) in
  let susp := if (3 <=? score)%Z then S susp else susp in
  let allow :=
    if countsAsAllowed (getPermission (permissionKey cookie) allPermissions)
    then S allow else allow in
  (keys, susp, allow).

(** The loop over [cookieHistory.entries()] (lines 517-536). The entries
    are mutated in place: the loop returns the ledger with the new
    statuses. *)
Fixpoint statsHistoryLoop (hostname : string) (allPermissions : SyncStore)
    (keys : list string) (susp blk : nat) (h : Ledger)
  : list string * nat * nat * Ledger :=
  match h with
  | [] => (keys, susp, blk, [])
  | (k, e) :: h' =>
      if relatedToSite hostname e then
        let '(keys, susp) :=
          if negb (set_has k keys)
          then (set_add k keys, if (3 <=? riskScore e)%Z then S susp else susp)
          else (keys, susp) in
        let '(e, blk) :=
          if blockedByPermission allPermissions e
          then ((if negb (Status_eqb (status e) blocked)
                 then set_status blocked e else e), S blk)
          else (e, blk) in
        let '(keys', susp', blk', rest) :=
          statsHistoryLoop hostname allPermissions keys susp blk h' in
        (keys', susp', blk', (k, e) :: rest)
      else
        let '(keys', susp', blk', rest) :=
          statsHistoryLoop hostname allPermissions keys susp blk h' in
        (keys', susp', blk', (k, e) :: rest)
  end.

(** The body of [updateCookieStats] after its reads succeeded: the site's
    hostname, [chrome.cookies.getAll({url})] and
    [chrome.storage.sync.get(null)]. Returns the stats and the mutated
    ledger. *)
Definition updateCookieStats_body (activeTabDomain : string) (now : Z)
    (hostname : string) (cookies : list Cookie) (allPermissions : SyncStore)
    (h : Ledger) : Stats * Ledger :=
  let '(keys, susp, allow) :=
    fold_left (statsLiveStep activeTabDomain now allPermissions) cookies ([], 0, 0)%nat in
  let '(keys, susp, blk, h') :=
    statsHistoryLoop hostname allPermissions keys susp 0%nat h in
  ({| total := List.length keys; suspicious := susp; blocked_count := blk;
      allowed := allow |}, h').

(** The state of the background worker that the claims observe: the
    in-memory ledger, its persisted copy in [chrome.storage.local], the
    global [cookieStats] and [activeTabDomain]. *)
Record BgState := mkBgState {
  cookieHistory : Ledger;
  storedHistory : Ledger;
  cookieStats : Stats;
  activeTabDomain : string
}.

(** [saveCookieHistory()] *)
Definition saveCookieHistory (s : BgState) : BgState :=
  {| cookieHistory := cookieHistory s; storedHistory := cookieHistory s;
     cookieStats := cookieStats s; activeTabDomain := activeTabDomain s |}.

(** [updateCookieStats(url)]: [reads] is [None] when [new URL(url)] or one
    of the awaited reads throws, in which case the [catch] returns the
    previous [cookieStats]. *)
Definition updateCookieStats (now : Z) (s : BgState)
    (reads : option (string * list Cookie * SyncStore)) : BgState * Stats :=
  match reads with
  | None => (s, cookieStats s)
  | Some (hostname, cookies, allPermissions) =>
      let '(stats, h') :=
        updateCookieStats_body (activeTabDomain s) now hostname cookies
          allPermissions (cookieHistory s) in
      ({| cookieHistory := h'; storedHistory := storedHistory s;
          cookieStats := stats; activeTabDomain := activeTabDomain s |}, stats)
  end.

(** The removal branch of the [cookies.onChanged] listener on the whole
    state, with its [saveCookieHistory()]. *)
Definition onCookieRemoved (now : Z) (s : BgState) (cookie : Cookie) : BgState :=
  let k := cookieKey cookie in
  match map_get k (cookieHistory s) with
  | Some e =>
      if Status_eqb (status e) active then
        saveCookieHistory
          {| cookieHistory := recordRemoval now (cookieHistory s) cookie;
             storedHistory := storedHistory s; cookieStats := cookieStats s;
             activeTabDomain := activeTabDomain s |}
      else s
  | None => s
  end.

(* ================================================================= *)
(** ** Risk levels                                                     *)
(* ================================================================= *)

Inductive RiskLevel := low | medium | high.

(** [let riskLevel = 'low'; if (riskScore >= 5) riskLevel = 'high';
     else if (riskScore >= 3) riskLevel = 'medium';] as written in
    [getAllCookieData] (twice) and in the popup's [analyzeCookieData]. *)
Definition riskLevelOfScore (riskScore : Z) : RiskLevel :=
  if (5 <=? riskScore)%Z then high
  else if (3 <=? riskScore)%Z then medium
  else low.

(** [getRiskLevel(dataTypesCount, cookie)] of the content script. *)
Definition getRiskLevel (dataTypesCount : nat) : RiskLevel :=
  if (3 <=? dataTypesCount)%nat then high
  else if (1 <=? dataTypesCount)%nat then medium
  else low.

(* ================================================================= *)
(** ** Popup ([analyzeCookieData], [updateStats] of popup.js)            *)
(* ================================================================= *)

(** A parsed [currentTabUrl]: the URL text and [new URL(...).hostname]. *)
Record TabUrl := mkTabUrl { href : string; hostname : string }.

(** The cookie object handed to the popup's [analyzeCookieData]: a cookie
    with the optional [blocked] and [potentialData] fields of the popup's
    pseudo-cookies. *)
Record PopupCookie := mkPopupCookie {
  pc_cookie : Cookie;
  pc_blocked : bool;
  pc_potentialData : option (list string)
}.

Record Analyzed := mkAnalyzed {
  an_potentialData : list string;
  an_riskLevel : RiskLevel;
  an_riskScore : Z;
  an_permission : option Permission;
  an_isBlocked : bool
}.

Definition analyzeCookieData_popup (now : Z) (currentTabUrl : option TabUrl)
    (stored : SyncStore) (pc : PopupCookie) : Analyzed :=
  let cookie := pc_cookie pc in
  let permission := getPermission (permissionKey cookie) stored in
  let isBlocked :=
    pc_blocked pc || match permission with Some p => p_blocked p | None => false end in
  let pd := match pc_potentialData pc with
            | Some d => d
            | None => detectPotentialData_popup (name cookie) (Some (value cookie)) end in
  let riskScore := Z.of_nat (List.length pd) in
  let riskScore :=
    match currentTabUrl with
    | Some u =>
        if negb (String.eqb (value cookie) "[BLOCKED]") then
          let currentDomain := hostname u in
          let cookieDomain := stripLeadingDot (domain cookie) in
          if negb (includes currentDomain cookieDomain)
             && negb (includes cookieDomain currentDomain)
          then (riskScore + 2)%Z else riskScore
        else riskScore
    | None => riskScore
    end in
  let riskScore :=
    if longLived now (expirationDate cookie) then (riskScore + 1)%Z else riskScore in
  let riskScore :=
    match currentTabUrl with
    | Some u => if negb (secure cookie) && startsWith (href u) "https"
                then (riskScore + 1)%Z else riskScore
    | None => riskScore
    end in
  let riskScore := if isBlocked then Z.max riskScore 5 else riskScore in
  {| an_potentialData := pd; an_riskLevel := riskLevelOfScore riskScore;
     an_riskScore := riskScore; an_permission := permission;
     an_isBlocked := isBlocked |}.

(** The popup's loop over the live cookies (lines 521-539). *)
Definition popupLiveStep (now : Z) (u : TabUrl) (allPermissions : SyncStore)
    (acc : list string * nat * nat) (cookie : Cookie) : list string * nat * nat :=
  let '(keys, susp, allow) := acc in
  let keys := set_add (cookieKey cookie) keys in
  let analyzed := analyzeCookieData_popup now (Some u) allPermissions
                    (mkPopupCookie cookie false None) in
  let susp := if (3 <=? an_riskScore analyzed)%Z then S susp else susp in
  let allow :=
    if countsAsAllowed (getPermission (permissionKey cookie) allPermissions)
    then S allow else allow in
  (keys, susp, allow).

(** [`${value.cookieName}_${value.cookieDomain}`] *)
Definition permCookieKey (p : Permission) : string :=
  cookieName p ++ "_" ++ cookieDomain p.

(** The popup's loop over the blocked permissions (lines 542-558). *)
Definition popupPermStep (acc : list string * nat * nat) (kv : string * SyncValue)
  : list string * nat * nat :=
  let '(keys, susp, blk) := acc in
  let '(key, v) := kv in
  match v with
  | SPermission p =>
      if startsWith key "cookie_" && p_blocked p then
        let ck := permCookieKey p in
        let '(keys, susp) :=
          if negb (set_has ck keys)
          then (set_add ck keys,
                if (3 <=? List.length (p_potentialData p))%nat then S susp else susp)
          else (keys, susp) in
        (keys, susp, S blk)
      else (keys, susp, blk)
  | SSetting _ => (keys, susp, blk)
  end.

(** [updateStats()] of popup.js: [None] when [currentTabUrl] is unset. *)
Definition updateStats_popup (now : Z) (currentTabUrl : option TabUrl)
    (cookies : list Cookie) (allPermissions : SyncStore) : option Stats :=
  match currentTabUrl with
  | None => None
  | Some u =>
      let '(keys, susp, allow) :=
        fold_left (popupLiveStep now u allPermissions) cookies ([], 0, 0)%nat in
      let '(keys, susp, blk) :=
        fold_left popupPermStep allPermissions (keys, susp, 0%nat) in
      Some {| total := List.length keys; suspicious := susp;
              blocked_count := blk; allowed := allow |}
  end.

(* ================================================================= *)
(** ** Content script ([handleSuspiciousCookie], [analyzeCookieData])   *)
(* ================================================================= *)

(** The risk level the content script shows for a [SUSPICIOUS_COOKIE]
    message carrying [cookie] and [riskScore]; the score is stored on the
    analysed cookie but the level is [getRiskLevel(potentialData.length)]. *)
Definition contentWarning (cookie : Cookie) (riskScore : Z) : RiskLevel * Z :=
  let pd := detectPotentialData_content (name cookie) (Some (value cookie)) in
  (getRiskLevel (List.length pd), riskScore).

(** [analyzeCookie] of the background: the [SUSPICIOUS_COOKIE] message it
    sends to an http(s) active tab, when notifications are not disabled. *)
Definition analyzeCookie (showNotifications : bool) (cookie : Cookie)
    (pd : list string) (riskScore : Z) : option (Cookie * list string * Z) :=
  if (3 <=? riskScore)%Z && showNotifications
  then Some (cookie, pd, riskScore) else None.

(* ================================================================= *)
(** ** Reconciliation engine ([getAllCookieData])                      *)
(* ================================================================= *)

(** An element of [analyzedCookies]. The [aiExplanation] text, which the
    claims do not observe, is left out. *)
Record MergedCookie := mkMerged {
  m_name : string;
  m_domain : string;
  m_value : string;
  m_path : string;
  m_secure : bool;
  m_httpOnly : bool;
  m_sameSite : string;
  m_expirationDate : option Z;
  m_potentialData : list string;
  m_riskLevel : RiskLevel;
  m_riskScore : Z;
  m_permission : option Permission;
  m_status : Status;
  m_firstSeen : Z;
  m_lastSeen : Z;
  m_blockedAt : option Z;
  m_autoBlocked : option bool
}.

Definition mergedKey (m : MergedCookie) : string := m_name m ++ "_" ++ m_domain m.

(** The first loop (lines 587-626), for one live cookie. *)
Definition mergeLive (activeTabDomain : string) (now : Z) (h : Ledger)
    (permissions : SyncStore) (cookie : Cookie) : MergedCookie :=
  let historyEntry := map_get (cookieKey cookie) h in
  let pd := match historyEntry with
            | Some e => potentialData e | None => detectPotentialData cookie end in
  let riskScore := match historyEntry with
                   | Some e => riskScore e
                   | None => calculateRiskScore activeTabDomain now cookie (Some pd) end in
  let permission := getPermission (permissionKey cookie) permissions in
  {| m_name := name cookie; m_domain := domain cookie; m_value := value cookie;
     m_path := path cookie; m_secure := secure cookie;
     m_httpOnly := httpOnly cookie; m_sameSite := sameSite cookie;
     m_expirationDate := expirationDate cookie; m_potentialData := pd;
     m_riskLevel := riskLevelOfScore riskScore; m_riskScore := riskScore;
     m_permission := permission;
     m_status := match permission with
                 | Some p => if p_blocked p then blocked else active
                 | None => active end;
     m_firstSeen := match historyEntry with Some e => firstSeen e | None => now end;
     m_lastSeen := match historyEntry with Some e => lastSeen e | None => now end;
     m_blockedAt := None; m_autoBlocked := None |}.

(** The second loop (lines 628-663), for one history entry that was not
    produced from a live cookie and whose domain relates to the site. *)
Definition mergeHistory (permissions : SyncStore) (e : HistoryEntry) : MergedCookie :=
  let c := h_cookie e in
  let permission := getPermission (permissionKey c) permissions in
  {| m_name := name c; m_domain := domain c; m_value := "[BLOCKED/REMOVED]";
     m_path := if truthy_str (path c) then path c else "/";
     m_secure := secure c; m_httpOnly := httpOnly c;
     m_sameSite := if truthy_str (sameSite c) then sameSite c else "unspecified";
     m_expirationDate := expirationDate c;
     m_potentialData := potentialData e;
     m_riskLevel := riskLevelOfScore (riskScore e);
     m_riskScore := riskScore e; m_permission := permission;
     m_status := status e; m_firstSeen := firstSeen e; m_lastSeen := lastSeen e;
     m_blockedAt := blockedAt e; m_autoBlocked := autoBlocked e |}.

(** The merged list [analyzedCookies]. *)
Definition mergedView (activeTabDomain : string) (now : Z) (hostname : string)
    (cookies : list Cookie) (permissions : SyncStore) (h : Ledger)
  : list MergedCookie :=
  let processedCookies := map cookieKey cookies in
  (map (mergeLive activeTabDomain now h permissions) cookies
   ++ map (fun '(_, e) => mergeHistory permissions e)
        (filter (fun '(k, e) => negb (set_has k processedCookies)
                                && relatedToSite hostname e) h))%list.

Record AllCookieData := mkAllCookieData {
  ad_website : option string;
  ad_cookies : list MergedCookie;
  ad_permissions : SyncStore;
  ad_settings : SyncStore;
  ad_stats : option Stats
}.

(** [getAllCookieData()]: [tab] is the parsed URL of the active tab
    ([None]: no tab or no URL) and [reads] the results of
    [chrome.cookies.getAll] and [chrome.storage.sync.get(null)] ([None]:
    a read threw, caught by the [catch]). *)
Definition getAllCookieData (now : Z) (s : BgState) (tab : option TabUrl)
    (reads : option (list Cookie * SyncStore)) : AllCookieData :=
  match tab with
  | None => mkAllCookieData None [] [] [] None
  | Some u =>
      match reads with
      | None => mkAllCookieData None [] [] [] None
      | Some (cookies, allData) =>
          let permissions := filter (fun '(k, _) => startsWith k "cookie_") allData in
          let settings := filter (fun '(k, _) => negb (startsWith k "cookie_")) allData in
          {| ad_website := Some (hostname u);
             ad_cookies := mergedView (activeTabDomain s) now (hostname u) cookies
                             permissions (cookieHistory s);
             ad_permissions := permissions; ad_settings := settings;
             ad_stats := Some (cookieStats s) |}
      end
  end.

(* ================================================================= *)
(** ** Message handler ([chrome.runtime.onMessage])                     *)
(* ================================================================= *)

Inductive Message :=
  | CONTENT_SCRIPT_LOADED
  | OPEN_POPUP
  | GET_ACTIVE_TAB
  | UPDATE_COOKIE_PERMISSIONS (cookie : Cookie) (allowed : list string) (act : string)
  | GET_COOKIE_STATS
  | GET_ALL_COOKIE_DATA
  | GET_AI_EXPLANATION (cookie : Cookie)
  | OTHER_MESSAGE.

(** A tab as returned by [chrome.tabs.query]. *)
Record Tab := mkTab { tab_url : option string }.

(** What the browser answers to the awaited calls of a handler:
    the active tabs of the current window, whether the
    [chrome.storage.sync.set] of a permission update succeeds, and the
    reads of [updateCookieStats] / [getAllCookieData]. *)
Record Env := mkEnv {
  env_tabs : list Tab;
  env_syncSetOk : bool;
  env_statsReads : option (string * list Cookie * SyncStore);
  env_tabUrl : option TabUrl;
  env_dataReads : option (list Cookie * SyncStore)
}.

Inductive Response :=
  | RTab (t : option Tab)
  | RSuccess
  | RStats (s : Stats)
  | RAllData (d : AllCookieData)
  | RExplanation.

(** The responses passed to [sendResponse] for one message, once every
    promise of the handler has settled. [handleCookiePermissionsUpdate]
    rejects exactly when its awaited [chrome.storage.sync.set] rejects
    (the cookie removal is inside a [try]; [updateCookieStats] catches);
    [getAllCookieData] and [getAIExplanation] catch their errors. *)
Definition onMessage (now : Z) (s : BgState) (env : Env) (m : Message)
  : list Response :=
  match m with
  | CONTENT_SCRIPT_LOADED | OPEN_POPUP | OTHER_MESSAGE => []
  | GET_ACTIVE_TAB => [RTab (hd_error (env_tabs env))]
  | UPDATE_COOKIE_PERMISSIONS _ _ _ =>
      if env_syncSetOk env then [RSuccess] else []
  | GET_COOKIE_STATS =>
      match env_tabs env with
      | t :: _ =>
          match tab_url t with
          | Some url =>
              if truthy_str url
              then [RStats (snd (updateCookieStats now s (env_statsReads env)))]
              else []
          | None => []
          end
      | [] => []
      end
  | GET_ALL_COOKIE_DATA =>
      [RAllData (getAllCookieData now s (env_tabUrl env) (env_dataReads env))]
  | GET_AI_EXPLANATION _ => [RExplanation]
  end.

(* ================================================================= *)
(** ** Blocking decisions of the background                            *)
(* ================================================================= *)

(** [shouldBlockCookie(cookie)] (lines 460-475) on the value its
    [chrome.storage.sync.get] returns under the permission key. A stored
    setting has no [action] field: the test is then false. *)
Definition shouldBlockCookie (st : SyncStore) (cookie : Cookie) : bool :=
  match map_get (permissionKey cookie) st with
  | Some (SPermission permission) =>
      isBlocking (action permission) (allowedDataTypes permission)
  | Some (SSetting _) => false
  | None => false
  end.

(** [historyEntry.status = 'blocked'; historyEntry.blockedAt = Date.now();] *)
Definition markBlocked (now : Z) (e : HistoryEntry) : HistoryEntry :=
  {| h_cookie := h_cookie e; potentialData := potentialData e;
     riskScore := riskScore e; firstSeen := firstSeen e; lastSeen := lastSeen e;
     status := blocked; blockedAt := Some now; removedAt := removedAt e;
     autoBlocked := autoBlocked e; userAction := userAction e;
     h_allowedDataTypes := h_allowedDataTypes e |}.

(** The same with [historyEntry.autoBlocked = true;] (scanExistingCookies). *)
Definition markAutoBlocked (now : Z) (e : HistoryEntry) : HistoryEntry :=
  {| h_cookie := h_cookie e; potentialData := potentialData e;
     riskScore := riskScore e; firstSeen := firstSeen e; lastSeen := lastSeen e;
     status := blocked; blockedAt := Some now; removedAt := removedAt e;
     autoBlocked := Some true; userAction := userAction e;
     h_allowedDataTypes := h_allowedDataTypes e |}.

(** [cookieHistory] replaced in the background state. *)
Definition setHistory (h : Ledger) (s : BgState) : BgState :=
  {| cookieHistory := h; storedHistory := storedHistory s;
     cookieStats := cookieStats s; activeTabDomain := activeTabDomain s |}.

(** The history update of [handleCookiePermissionsUpdate] (lines 430-440). *)
Definition permissionsUpdateHistory (now : Z) (h : Ledger) (cookie : Cookie)
    (allowed : list string) (act : string) : Ledger :=
  let cookieKey := cookieKey cookie in
  let isBlocking := isBlocking act allowed in
  match map_get cookieKey h with
  | Some historyEntry =>
      map_set cookieKey
        {| h_cookie := h_cookie historyEntry;
           potentialData := potentialData historyEntry;
           riskScore := riskScore historyEntry;
           firstSeen := firstSeen historyEntry;
           lastSeen := lastSeen historyEntry;
           status := if isBlocking then blocked else active;
           blockedAt := if isBlocking then Some now else blockedAt historyEntry;
           removedAt := removedAt historyEntry;
           autoBlocked := autoBlocked historyEntry;
           userAction := Some act;
           h_allowedDataTypes := Some allowed |} h
  | None => h
  end.

(** The end of [handleCookiePermissionsUpdate] (lines 454-457):
    [if (tabs.length > 0 && tabs[0].url) await updateCookieStats(tabs[0].url)],
    with [st] the store that [chrome.storage.sync.get(null)] returns and
    [reads] the hostname and cookies of [updateCookieStats] ([None]: one
    of its steps threw). *)
Definition updateActiveTabStats (now : Z) (s : BgState) (st : SyncStore)
    (tabs : list Tab) (reads : option (string * list Cookie)) : BgState :=
  match tabs with
  | tab :: _ =>
      match tab_url tab with
      | Some url =>
          if truthy_str url then
            fst (updateCookieStats now s
                   (option_map (fun '(hn, cookies) => (hn, cookies, st)) reads))
          else s
      | None => s
      end
  | [] => s
  end.

(** [handleCookiePermissionsUpdate(cookie, allowedDataTypes, action)]
    (lines 410-458): the permission write (the cookie's
    [potentialData || []] is [pd]), then the history update and its
    [saveCookieHistory()], then the awaited [updateCookieStats(tabs[0].url)]
    when the active tab has a URL, which reads the store just written.
    [syncSetOk] is whether the awaited [chrome.storage.sync.set]
    resolves: when it rejects, the function rejects before touching
    anything. [tabs] is the answer of [chrome.tabs.query]. The
    [chrome.cookies.remove] call is inside a [try] and acts on the
    browser only. *)
Definition handleCookiePermissionsUpdate (now : Z) (s : BgState) (st : SyncStore)
    (cookie : Cookie) (pd : list string) (allowed : list string) (act : string)
    (syncSetOk : bool) (tabs : list Tab) (reads : option (string * list Cookie))
  : BgState * SyncStore :=
  if negb syncSetOk then (s, st) else
  let st := permissionsUpdateWrite now st cookie pd allowed act in
  let s :=
    match map_get (cookieKey cookie) (cookieHistory s) with
    | Some _ =>
        saveCookieHistory
          (setHistory (permissionsUpdateHistory now (cookieHistory s) cookie allowed act) s)
    | None => s
    end in
  (updateActiveTabStats now s st tabs reads, st).

(** The [!changeInfo.removed] branch of the [cookies.onChanged] listener
    (lines 169-204), with [st] the sync storage that [shouldBlockCookie]
    reads. [analyzeCookie] only sends a message and [chrome.cookies.remove]
    acts on the browser; neither touches the ledger. *)
Definition onCookieSet (now : Z) (s : BgState) (st : SyncStore) (cookie : Cookie)
  : BgState :=
  let potentialData := detectPotentialData cookie in
  let riskScore := calculateRiskScore (activeTabDomain s) now cookie (Some potentialData) in
  let cookieKey := cookieKey cookie in
  let s := saveCookieHistory
             (setHistory (recordSighting now (cookieHistory s) cookie potentialData riskScore) s) in
  if shouldBlockCookie st cookie then
    match map_get cookieKey (cookieHistory s) with
    | Some historyEntry =>
        saveCookieHistory (setHistory (map_set cookieKey (markBlocked now historyEntry)
                                         (cookieHistory s)) s)
    | None => s
    end
  else s.

(** [settings.autoBlockHighRisk] of [chrome.storage.sync.get(['autoBlockHighRisk'])]:
    JavaScript truthiness of the stored value. *)
Definition autoBlockHighRisk (st : SyncStore) : bool :=
  match map_get "autoBlockHighRisk" st with
  | Some (SSetting b) => b
  | Some (SPermission _) => true
  | None => false
  end.

(** One iteration of the loop of [scanExistingCookies] (lines 355-402):
    the ledger and the sync storage it writes. *)
Definition scanStep (activeTabDomain : string) (now : Z) (autoBlock : bool)
    (acc : Ledger * SyncStore) (cookie : Cookie) : Ledger * SyncStore :=
  let '(h, st) := acc in
  let potentialData := detectPotentialData cookie in
  let riskScore := calculateRiskScore activeTabDomain now cookie (Some potentialData) in
  let cookieKey := cookieKey cookie in
  let h := recordSighting now h cookie potentialData riskScore in
  if autoBlock then
    if (5 <=? riskScore)%Z then
      let h := match map_get cookieKey h with
               | Some historyEntry => map_set cookieKey (markAutoBlocked now historyEntry) h
               | None => h
               end in
      (h, autoBlockWrite now st cookie potentialData)
    else (h, st)
  else (h, st).

(** The loop of [scanExistingCookies] from the [i]-th cookie on.
    [writeOk i] is whether the awaited [chrome.cookies.remove] and
    [chrome.storage.sync.set] of the auto-block of the [i]-th cookie both
    resolve. When one rejects, the entry has already been marked blocked
    in memory, nothing is written to the storage, and the exception
    leaves the loop for the [catch] (line 405): the remaining cookies are
    not scanned. The flag is [false] in that case. *)
Fixpoint scanLoop (activeTabDomain : string) (now : Z) (autoBlock : bool)
    (writeOk : nat -> bool) (i : nat) (acc : Ledger * SyncStore) (cookies : list Cookie)
  : Ledger * SyncStore * bool :=
  match cookies with
  | [] => (fst acc, snd acc, true)
  | cookie :: rest =>
      let riskScore :=
        calculateRiskScore activeTabDomain now cookie (Some (detectPotentialData cookie)) in
      let acc' := scanStep activeTabDomain now autoBlock acc cookie in
      if autoBlock && (5 <=? riskScore)%Z && negb (writeOk i)
      then (fst acc', snd acc, false)
      else scanLoop activeTabDomain now autoBlock writeOk (S i) acc' rest
  end.

(** [scanExistingCookies(url)] (lines 347-408): [cookies] is the result of
    [chrome.cookies.getAll({url})] ([None]: it threw and the [catch]
    returns at once); the settings are read from [st]. The final
    [saveCookieHistory()] runs only when the loop completes. *)
Definition scanExistingCookies (now : Z) (s : BgState) (st : SyncStore)
    (cookies : option (list Cookie)) (writeOk : nat -> bool) : BgState * SyncStore :=
  match cookies with
  | None => (s, st)
  | Some cookies =>
      let autoBlock := autoBlockHighRisk st in
      let '(h, st, completed) :=
        scanLoop (activeTabDomain s) now autoBlock writeOk 0 (cookieHistory s, st) cookies in
      if completed then (saveCookieHistory (setHistory h s), st)
      else (setHistory h s, st)
  end.

(* ================================================================= *)
(** ** Explanations ([getAIExplanation])                               *)
(* ================================================================= *)

Definition fallback_session : string :=
  "This is a session cookie that helps the website remember you while you browse. It expires when you close your browser.".
Definition fallback_tracking : string :=
  "This cookie tracks your browsing activity across pages. It helps the site understand how you use their service.".
Definition fallback_analytics : string :=
  "This cookie collects statistics about how you use the website. Companies use this data to improve their site.".
Definition fallback_advertising : string :=
  "This cookie is used to show you personalized ads based on your interests and browsing history.".
Definition fallback_preference : string :=
  "This cookie remembers your settings and preferences so you don't have to set them every time.".
Definition fallback_default : string :=
  "This cookie helps the website function properly. It may store information about your session or preferences.".

(** The [catch] branch of [getAIExplanation] (lines 115-141); [cookiePd]
    is the message cookie's optional [potentialData]. *)
Definition fallbackExplanation (cookie : Cookie) (cookiePd : option (list string)) : string :=
  let nm := toLowerCase (name cookie) in
  let potentialData := match cookiePd with Some d => d | None => [] end in
  if includes nm "session" || includes nm "sid" then fallback_session
  else if existsb (String.eqb "marketing_data") potentialData || includes nm "ad"
  then fallback_advertising
  else if existsb (String.eqb "browsing_behavior") potentialData || includes nm "analytics"
  then fallback_analytics
  else if existsb (String.eqb "preferences") potentialData || includes nm "pref"
  then fallback_preference
  else fallback_default.

(** [getAIExplanation(cookie)] (lines 47-143) on the [cookieExplanations]
    cache. Neither [GROQ_API_URL] nor [GROQ_API_KEY] is declared in the
    worker, so evaluating the arguments of [fetch] (line 77) throws a
    [ReferenceError] inside the [try]: an uncached cookie always gets the
    fallback of the [catch], and nothing is added to the cache. Returns
    the explanation and the cache afterwards. *)
Definition getAIExplanation (cookieExplanations : JsMap string) (cookie : Cookie)
    (cookiePd : option (list string)) : string * JsMap string :=
  let cookieKey := cookieKey cookie in
  match map_get cookieKey cookieExplanations with
  | Some explanation => (explanation, cookieExplanations)
  | None => (fallbackExplanation cookie cookiePd, cookieExplanations)
  end.

(* ================================================================= *)
(** ** Content script state ([suspiciousCookies], the notification)     *)
(* ================================================================= *)

(** An element of [suspiciousCookies]: [{...cookie, potentialData,
    riskLevel}] with [riskScore] and the ISO [timestamp]. *)
Record ContentAnalyzed := mkContentAnalyzed {
  ca_cookie : Cookie;
  ca_potentialData : list string;
  ca_riskLevel : RiskLevel;
  ca_riskScore : Z;
  ca_timestamp : string
}.

(** The list and the [#cookie-privacy-notification] element on the page
    ([None]: none is shown). *)
Record ContentState := mkContentState {
  suspiciousCookies : list ContentAnalyzed;
  notification : option ContentAnalyzed
}.

(** [showCookieWarning(cookie)]: nothing when a notification exists. *)
Definition showCookieWarning (st : ContentState) (c : ContentAnalyzed) : ContentState :=
  match notification st with
  | Some _ => st
  | None => mkContentState (suspiciousCookies st) (Some c)
  end.

(** [notification.remove()] (dismiss, manage or the 15 s timeout). *)
Definition removeNotification (st : ContentState) : ContentState :=
  mkContentState (suspiciousCookies st) None.

(** [handleSuspiciousCookie(cookie, riskScore)] (lines 14-34), with the
    content script's [analyzeCookieData]; [ts] is
    [new Date().toISOString()]. *)
Definition handleSuspiciousCookie (ts : string) (st : ContentState) (cookie : Cookie)
    (riskScore : Z) : ContentState :=
  if existsb (fun c => String.eqb (name (ca_cookie c)) (name cookie)
                       && String.eqb (domain (ca_cookie c)) (domain cookie))
       (suspiciousCookies st)
  then st
  else
    let potentialData := detectPotentialData_content (name cookie) (Some (value cookie)) in
    let analyzedCookie :=
      mkContentAnalyzed cookie potentialData (getRiskLevel (List.length potentialData))
        riskScore ts in
    let st := mkContentState (suspiciousCookies st ++ [analyzedCookie])%list
                (notification st) in
    if (2 <=? riskScore)%Z then showCookieWarning st analyzedCookie else st.

(* ================================================================= *)
(** ** Popup list ([loadCurrentTabCookies], [handleCookieAction])        *)
(* ================================================================= *)

(** The pseudo-cookie of popup.js for a blocked permission (lines 44-54);
    its [sameSite] and [expirationDate] are absent. *)
Definition pseudoCookie (p : Permission) : PopupCookie :=
  mkPopupCookie (mkCookie (cookieName p) (cookieDomain p) "[BLOCKED]" "/" false false ""
                   None)
    true (Some (p_potentialData p)).

(** [allCookies] of [loadCurrentTabCookies] (lines 31-57): the live
    cookies, then a pseudo-cookie for each blocked permission whose
    cookie is not live. *)
Definition combineCookies (cookies : list Cookie) (allPermissions : SyncStore)
  : list PopupCookie :=
  let cookieKeys := map cookieKey cookies in
  (map (fun c => mkPopupCookie c false None) cookies
   ++ flat_map (fun '(key, v) =>
                  match v with
                  | SPermission p =>
                      if startsWith key "cookie_" && p_blocked p
                         && negb (set_has (permCookieKey p) cookieKeys)
                      then [pseudoCookie p] else []
                  | SSetting _ => []
                  end) allPermissions)%list.

(** The comparator of [analyzedCookies.sort] in popup.js (lines 85-90). *)
Definition compareAnalyzed (a b : Analyzed) : Z :=
  if an_isBlocked a && negb (an_isBlocked b) then (-1)%Z
  else if negb (an_isBlocked a) && an_isBlocked b then 1%Z
  else (an_riskScore b - an_riskScore a)%Z.

(** The [dataTypesToAllow] of [handleCookieAction(cookie, action, ...)]
    (popup.js lines 310-345), sent with [UPDATE_COOKIE_PERMISSIONS];
    [checked] are the [data-type]s of the checked boxes, in order. *)
Definition dataTypesToAllow (cookiePd : list string) (act : string)
    (checked : list string) : list string :=
  if String.eqb act "allow" then cookiePd
  else if String.eqb act "block" then []
  else if String.eqb act "custom" then checked
  else [].

(* ================================================================= *)
(** ** Newer popup: ordering and expiry of the merged list             *)
(* ================================================================= *)

(** The priority of the sort of [response.cookies] (part_001 lines 66-91). *)
Definition sortPriority (m : MergedCookie) : Z :=
  let blockedByPermission :=
    match m_permission m with Some p => p_blocked p | None => false end in
  let isActive :=
    Status_eqb (m_status m) active && negb (String.eqb (m_value m) "[BLOCKED/REMOVED]") in
  let isBlocked := blockedByPermission && negb isActive in
  let unblockedNotSet :=
    negb blockedByPermission && negb isActive && negb (Status_eqb (m_status m) removed) in
  let isRemoved := Status_eqb (m_status m) removed && negb blockedByPermission in
  if isActive then 4%Z
  else if isBlocked then 3%Z
  else if unblockedNotSet then 2%Z
  else if isRemoved then 1%Z
  else 0%Z.

(** The comparator (part_001 lines 93-98). *)
Definition compareMerged (a b : MergedCookie) : Z :=
  let aPriority := sortPriority a in
  let bPriority := sortPriority b in
  if negb (aPriority =? bPriority)%Z then (bPriority - aPriority)%Z
  else (m_riskScore b - m_riskScore a)%Z.

(** The texts of [getExpirationText], the number of a
    [Math.floor(...) + ' unit'] text kept as an integer. *)
Inductive ExpirationText :=
  | TextBlocked | TextNotSet | TextRemoved | TextSession | TextExpired
  | TextUnderMinute | TextMinutes (n : Z) | TextHours (n : Z) | TextDays (n : Z)
  | TextMonths (n : Z) | TextYears (n : Z).

(** The branches of [getExpirationText] from [!cookie.expirationDate] on
    (popup.js lines 585-596, part_001 lines 746-757). With [now] in
    milliseconds, [diff = exp - now/1000] seconds is [d/1000] for
    [d = 1000*exp - now], so [diff < k] is [d < 1000*k] and
    [Math.floor(diff / k)] is [d / (1000*k)] (floor division). *)
Definition expirationTextOf (now : Z) (exp : option Z) : ExpirationText :=
  match exp with
  | None => TextSession
  | Some e =>
      if (e =? 0)%Z then TextSession
      else
        let d := (1000 * e - now)%Z in
        if (d <? 0)%Z then TextExpired
        else if (d <? 60000)%Z then TextUnderMinute
        else if (d <? 3600000)%Z then TextMinutes (d / 60000)
        else if (d <? 86400000)%Z then TextHours (d / 3600000)
        else if (d <? 2592000000)%Z then TextDays (d / 86400000)
        else if (d <? 31536000000)%Z then TextMonths (d / 2592000000)
        else TextYears (d / 31536000000)
  end.

(** [getExpirationText(cookie)] of popup.js (lines 583-597). *)
Definition getExpirationText_popup (now : Z) (isBlocked : bool) (exp : option Z)
  : ExpirationText :=
  if isBlocked then TextBlocked else expirationTextOf now exp.

(** [getExpirationText(cookie)] of part_001 (lines 738-758). *)
Definition getExpirationText_merged (now : Z) (m : MergedCookie) : ExpirationText :=
  let isBlocked :=
    match m_permission m with Some p => p_blocked p | None => false end
    && String.eqb (m_value m) "[BLOCKED/REMOVED]" in
  let isUnblockedButNotSet := negb isBlocked && String.eqb (m_value m) "[BLOCKED/REMOVED]" in
  let isRemoved := Status_eqb (m_status m) removed in
  if isBlocked then TextBlocked
  else if isUnblockedButNotSet then TextNotSet
  else if isRemoved then TextRemoved
  else expirationTextOf now (m_expirationDate m).

(** [isEphemeralCookie(cookie)] (part_001 lines 17-27), [now] in ms. *)
Definition isEphemeralCookie (now : Z) (m : MergedCookie) : bool :=
  let ephemeralPatterns := ["ST-"; "CONSISTENCY"; "GPS"; "YSC"] in
  let isShortLived :=
    existsb (fun pattern => startsWith (m_name m) pattern || String.eqb (m_name m) pattern)
      ephemeralPatterns in
  let hasNoExpiration :=
    match m_expirationDate m with None => true | Some e => (e =? 0)%Z end in
  let isShortExpiration :=
    match m_expirationDate m with
    | Some e => negb (e =? 0)%Z && (1000 * e - now <? 3600000)%Z
    | None => false
    end in
  isShortLived || hasNoExpiration || isShortExpiration.

(* ================================================================= *)
(** ** Scores as the specification states them                        *)
(* ================================================================= *)

(** The risk score in the words of the specification: categories, one
    point per tracker pattern found in the lower-cased [name + value],
    2 for a third-party cookie when the active domain is known, 1 for an
    expiry more than 365 days ahead, and 1 for an insecure cookie on a
    transport-secure page ([pageSecure]). *)
Definition specified_riskScore (cookie : Cookie) (categories : list string)
    (activeDomain : string) (pageSecure : bool) (now : Z) : Z :=
  Z.of_nat (List.length categories)
  + Z.of_nat (List.length (filter (includes (toLowerCase (name cookie ++ value cookie)))
                             trackingPatterns))
  + (if truthy_str activeDomain && negb (isSameDomain (domain cookie) activeDomain)
     then 2 else 0)
  + (match expirationDate cookie with
     | Some e => if (now + 31536000000 <? 1000 * e)%Z then 1 else 0
     | None => 0 end)
  + (if negb (secure cookie) && pageSecure then 1 else 0).


(* ================================================================= *)
(** ** Auxiliary predicates of the proofs                               *)
(* ================================================================= *)

(** Ledger entries counted as blocked by [updateCookieStats]. *)
Definition blockedEntry (hn : string) (perms : SyncStore) (ke : string * HistoryEntry) : bool :=
  let '(_, e) := ke in relatedToSite hn e && blockedByPermission perms e.

(** Storage entries counted as blocked by the popup's [updateStats]. *)
Definition blockedStored (kv : string * SyncValue) : bool :=
  let '(k, v) := kv in
  match v with SPermission p => startsWith k "cookie_" && p_blocked p | SSetting _ => false end.

(** The cookie key the popup derives from a stored permission. *)
Definition storedCookieKey (kv : string * SyncValue) : string :=
  match snd kv with SPermission p => permCookieKey p | SSetting _ => "" end.

(** A sync store whose permission records sit under the key
    [cookie_<cookieName>_<cookieDomain>], as every write produces them. *)
Definition wellKeyedStore (st : SyncStore) : Prop :=
  NoDup (map fst st)
  /\ forall k p, In (k, SPermission p) st -> k = "cookie_" ++ permCookieKey p.

(** The [(name, domain)] pair of an element of the merged view. *)
Definition mergedPair (m : MergedCookie) : string * string := (m_name m, m_domain m).

(** The [(name, domain)] pair the content script deduplicates on. *)
Definition caPair (a : ContentAnalyzed) : string * string :=
  (name (ca_cookie a), domain (ca_cookie a)).

(** A shown notification is for a listed cookie of score at least 2. *)
Definition notificationListed (st : ContentState) : Prop :=
  match notification st with
  | Some n => In n (suspiciousCookies st) /\ (2 <= ca_riskScore n)%Z
  | None => True
  end.

(** What the scan guarantees for a cookie it has processed: an entry that
    is active, or (auto-block on) blocked by the scan with a blocking
    permission record. *)
Definition scannedOk (autoBlock : bool) (acc : Ledger * SyncStore) (c : Cookie) : Prop :=
  exists e, map_get (cookieKey c) (fst acc) = Some e
    /\ (status e = active
        \/ (autoBlock = true /\ status e = blocked /\ autoBlocked e = Some true
            /\ (5 <= riskScore e)%Z /\ shouldBlockCookie (snd acc) c = true)).

(* ================================================================= *)
(** ** Lemmas on the JavaScript primitives                             *)
(* ================================================================= *)

Lemma fold_count_Z (f : string -> bool) (l : list string) (s0 : Z) :
  fold_left (fun score p => if f p then (score + 1)%Z else score) l s0
  = (s0 + Z.of_nat (List.length (filter f l)))%Z.
Proof.
  revert s0; induction l as [|p l IH]; intros s0; simpl.
  - lia.
  - destruct (f p); rewrite IH; simpl; lia.
Qed.

Lemma setOfList_fold_spec (xs acc : list string) :
  NoDup acc ->
  NoDup (fold_left (fun acc x => if existsb (String.eqb x) acc then acc
                                 else (acc ++ [x])%list) xs acc)
  /\ (forall y, In y (fold_left (fun acc x => if existsb (String.eqb x) acc then acc
                                              else (acc ++ [x])%list) xs acc)
                <-> In y acc \/ In y xs).
Proof.
  revert acc; induction xs as [|x xs IH]; intros acc Hnd; simpl.
  - split; [assumption | intros y; tauto].
  - destruct (existsb (String.eqb x) acc) eqn:Ex.
    + destruct (IH acc Hnd) as [H1 H2]. split; [assumption|].
      intros y; rewrite H2.
      apply existsb_exists in Ex as [z [Hz Hzx]]. apply String.eqb_eq in Hzx; subst z.
      split; [tauto|]. intros [Hy|[Hy|Hy]]; subst; tauto.
    + assert (Hnd' : NoDup (acc ++ [x])%list).
      { apply NoDup_app; [assumption | constructor; [simpl; tauto | constructor] |].
        intros y Hy Hy'. simpl in Hy'. destruct Hy' as [Hy'|[]]; subst y.
        assert (existsb (String.eqb x) acc = true) as Hc.
        { apply existsb_exists. exists x. split; [assumption | apply String.eqb_refl]. }
        congruence. }
      destruct (IH _ Hnd') as [H1 H2]. split; [assumption|].
      intros y; rewrite H2, in_app_iff; simpl; tauto.
Qed.

Lemma setOfList_spec (xs : list string) :
  NoDup (setOfList xs) /\ (forall y, In y (setOfList xs) <-> In y xs).
Proof.
  destruct (setOfList_fold_spec xs [] (NoDup_nil _)) as [H1 H2].
  split; [exact H1|]. intros y; unfold setOfList; rewrite H2; simpl; tauto.
Qed.

Lemma classify_fold_incl (tbl : list (string * list string)) (s : string)
    (acc : list string) (y : string) :
  In y (fold_left (fun acc '(dataType, patterns) =>
                     if existsb (includes s) patterns
                     then (acc ++ [dataType])%list else acc) tbl acc) ->
  In y acc \/ In y (map fst tbl).
Proof.
  revert acc; induction tbl as [|[t ps] tbl IH]; intros acc Hy; simpl in *.
  - tauto.
  - destruct (existsb (includes s) ps); apply IH in Hy;
      rewrite ?in_app_iff in Hy; simpl in Hy; tauto.
Qed.

Lemma classifyText_spec (tbl : list (string * list string)) (s : string) :
  NoDup (classifyText tbl s) /\ incl (classifyText tbl s) (map fst tbl).
Proof.
  unfold classifyText.
  destruct (setOfList_spec (fold_left (fun acc '(dataType, patterns) =>
                     if existsb (includes s) patterns
                     then (acc ++ [dataType])%list else acc) tbl [])) as [H1 H2].
  split; [exact H1|].
  intros y Hy. apply H2 in Hy. apply classify_fold_incl in Hy. simpl in Hy. tauto.
Qed.

Lemma classify_tables_in_vocabulary :
  incl (map fst dataPatterns_background) vocabulary
  /\ incl (map fst dataPatterns_popup) vocabulary
  /\ incl (map fst dataPatterns_content) vocabulary.
Proof.
  split; [|split]; intros y Hy; simpl in Hy;
    repeat (destruct Hy as [Hy|Hy]; [subst y; simpl; tauto|]); contradiction.
Qed.

(* ================================================================= *)
(** ** C1: the risk score of [calculateRiskScore]                      *)
(* ================================================================= *)

(** C1 (code bug): the insecure bonus of the background scorer does not
    look at the page. Line 326 tests [!cookie.domain.startsWith('http')],
    a protocol test applied to the cookie's domain, which holds for every
    domain; the popup's scorer (popup.js line 141) and the specification
    test [currentTabUrl.startsWith('https')] instead. An insecure cookie
    on [example.com], scored with no active domain while the page is
    served over plain http, gets 1 from the background scorer and 0 from
    the specified sum. *)
Lemma C1_insecure_bonus_ignores_page :
  ~ (forall activeDomain now cookie categories pageSecure,
        (0 <= now)%Z ->
        calculateRiskScore activeDomain now cookie (Some categories)
        = specified_riskScore cookie categories activeDomain pageSecure now).
Proof.
  intros H.
  specialize (H "" 0%Z (mkCookie "id" "example.com" "1" "/" false false "lax" None)
                [] false ltac:(lia)).
  vm_compute in H. discriminate H.
Qed.



(* ================================================================= *)
(** ** C8: the classifiers                                              *)
(* ================================================================= *)

(** C8 (counterexample): the classifier instances disagree: the popup's
    table has no [shopping_data] category, so [cart=1] is classified
    differently by the background and by the popup. *)
Lemma C8_classifiers_differ :
  ~ (forall nm v, detectPotentialData_background nm v = detectPotentialData_popup nm v).
Proof.
  intros H. specialize (H "cart" (Some "1")). vm_compute in H. discriminate H.
Qed.

(** C8 (amended): the background classifier is a function of the
    lower-cased text [name + "=" + value] alone, an absent value is the
    empty string, and its result has no duplicates and lies in the
    12-category vocabulary; the popup and content-script classifiers also
    return duplicate-free subsets of the vocabulary (with their own
    keyword tables). *)
Theorem C8_classifier_properties :
  forall nm v,
    detectPotentialData_background nm None = detectPotentialData_background nm (Some "")
    /\ detectPotentialData_background nm v
       = classifyText dataPatterns_background
           (toLowerCase (nm ++ "=" ++ match v with Some s => s | None => "" end))
    /\ NoDup (detectPotentialData_background nm v)
    /\ incl (detectPotentialData_background nm v) vocabulary
    /\ NoDup (detectPotentialData_popup nm v)
    /\ incl (detectPotentialData_popup nm v) vocabulary
    /\ NoDup (detectPotentialData_content nm v)
    /\ incl (detectPotentialData_content nm v) vocabulary.
Proof.
  intros nm v.
  destruct classify_tables_in_vocabulary as [Vb [Vp Vc]].
  unfold detectPotentialData_background, detectPotentialData_popup,
    detectPotentialData_content.
  repeat split.
  - destruct v as [s|]; [|reflexivity].
    unfold truthy_str. destruct (String.eqb_spec s "") as [->|]; reflexivity.
  - apply classifyText_spec.
  - eapply incl_tran; [apply classifyText_spec | exact Vb].
  - apply classifyText_spec.
  - eapply incl_tran; [apply classifyText_spec | exact Vp].
  - apply classifyText_spec.
  - eapply incl_tran; [apply classifyText_spec | exact Vc].
Qed.

(* ================================================================= *)
(** ** Lemmas on the [Map] model                                        *)
(* ================================================================= *)

Lemma map_get_set_same {V} (k : string) (v : V) (m : JsMap V) :
  map_get k (map_set k v m) = Some v.
Proof.
  induction m as [|[k' v'] m IH]; simpl.
  - rewrite String.eqb_refl. reflexivity.
  - destruct (String.eqb_spec k k') as [->|Hne]; simpl.
    + rewrite String.eqb_refl. reflexivity.
    + apply String.eqb_neq in Hne. rewrite Hne. exact IH.
Qed.

Lemma map_get_set_other {V} (k k' : string) (v : V) (m : JsMap V) :
  k' <> k -> map_get k' (map_set k v m) = map_get k' m.
Proof.
  intros Hne. induction m as [|[k0 v0] m IH]; simpl.
  - apply String.eqb_neq in Hne. rewrite Hne. reflexivity.
  - destruct (String.eqb_spec k k0) as [->|Hne0]; simpl.
    + apply String.eqb_neq in Hne. rewrite Hne. reflexivity.
    + rewrite IH. reflexivity.
Qed.

Lemma map_keys_set_existing {V} (k : string) (v : V) (m : JsMap V) :
  map_has k m = true -> map fst (map_set k v m) = map fst m.
Proof.
  unfold map_has. induction m as [|[k0 v0] m IH]; simpl; [discriminate|].
  destruct (String.eqb_spec k k0); simpl; intros H; [reflexivity|].
  f_equal. apply IH. exact H.
Qed.

Lemma map_delete_get_other {V} (k k' : string) (m : JsMap V) :
  k' <> k -> map_get k' (map_delete k m) = map_get k' m.
Proof.
  intros Hne. induction m as [|[k0 v0] m IH]; simpl; [reflexivity|].
  destruct (String.eqb_spec k k0) as [->|]; simpl.
  - apply String.eqb_neq in Hne. rewrite Hne. exact IH.
  - rewrite IH. reflexivity.
Qed.

Lemma set_status_same (e : HistoryEntry) : set_status (status e) e = e.
Proof. destruct e; reflexivity. Qed.

Lemma Status_eqb_spec (a b : Status) : Status_eqb a b = true <-> a = b.
Proof. destruct a, b; simpl; split; congruence. Qed.

(* ================================================================= *)
(** ** C5: [recordRemoval]                                             *)
(* ================================================================= *)

(** C5: a removal event leaves a [blocked] or [removed] entry (and the
    whole ledger, and the persisted copy) unchanged; an entry's status
    changes only from [active] to [removed], with [removedAt] set to the
    event time and every other field kept. *)
Theorem C5_recordRemoval_precedence :
  forall now h cookie,
    (forall e, map_get (cookieKey cookie) h = Some e ->
               status e <> active ->
               recordRemoval now h cookie = h
               /\ forall s, cookieHistory s = h -> onCookieRemoved now s cookie = s)
    /\ (forall k e e', map_get k h = Some e ->
                       map_get k (recordRemoval now h cookie) = Some e' ->
                       status e' <> status e ->
                       status e = active /\ status e' = removed
                       /\ removedAt e' = Some now
                       /\ h_cookie e' = h_cookie e /\ firstSeen e' = firstSeen e
                       /\ lastSeen e' = lastSeen e /\ blockedAt e' = blockedAt e
                       /\ riskScore e' = riskScore e
                       /\ potentialData e' = potentialData e).
Proof.
  intros now h c. split.
  - intros e He Hst.
    assert (Hb : Status_eqb (status e) active = false).
    { destruct (Status_eqb (status e) active) eqn:E; [|reflexivity].
      apply Status_eqb_spec in E. contradiction. }
    split.
    + unfold recordRemoval. rewrite He, Hb. reflexivity.
    + intros s Hs. unfold onCookieRemoved. rewrite Hs, He, Hb. reflexivity.
  - intros k e e' He He' Hne.
    unfold recordRemoval in He'.
    destruct (map_get (cookieKey c) h) as [e0|] eqn:E0;
      [|rewrite He in He'; inversion He'; subst; congruence].
    destruct (Status_eqb (status e0) active) eqn:Ea;
      [|rewrite He in He'; inversion He'; subst; congruence].
    destruct (String.eqb_spec k (cookieKey c)) as [->|Hk].
    + rewrite map_get_set_same in He'. rewrite E0 in He. inversion He; subst e0.
      inversion He'; subst e'. simpl.
      apply Status_eqb_spec in Ea. repeat split; auto.
    + rewrite map_get_set_other in He' by exact Hk.
      rewrite He in He'. inversion He'; subst; congruence.
Qed.

Lemma C5_recordRemoval_precedence_witness :
  let c := mkCookie "sid" "shop.com" "x" "/" true true "lax" None in
  let e := mkEntry c ["session_data"] 3 10 20 blocked (Some 20%Z) None None (Some "block") (Some []) in
  map_get (cookieKey c) [(cookieKey c, e)] = Some e /\ status e <> active /\
  recordRemoval 30 [(cookieKey c, e)] c = [(cookieKey c, e)].
Proof.
  intros c e. split; [reflexivity|]. split; [discriminate|].
  apply (proj1 (C5_recordRemoval_precedence 30 [(cookieKey c, e)] c) e);
    [reflexivity | discriminate].
Defined.

(* ================================================================= *)
(** ** C6: [recordSighting] twice                                       *)
(* ================================================================= *)

(** C6: recording the same sighting twice gives, for its key, the entry
    of the first call with only [lastSeen] advanced; its [firstSeen] is
    the one of the entry that existed before (or the first call's time),
    its status is [active] after both calls, and no other key changes. *)
Theorem C6_recordSighting_idempotent :
  forall now1 now2 h cookie pd score,
    let h1 := recordSighting now1 h cookie pd score in
    let h2 := recordSighting now2 h1 cookie pd score in
    exists e1,
      map_get (cookieKey cookie) h1 = Some e1
      /\ map_get (cookieKey cookie) h2 = Some (set_lastSeen now2 e1)
      /\ firstSeen e1 = match map_get (cookieKey cookie) h with
                        | Some e => firstSeen e | None => now1 end
      /\ status e1 = active
      /\ status (set_lastSeen now2 e1) = status e1
      /\ map fst h2 = map fst h1
      /\ (forall k, k <> cookieKey cookie -> map_get k h2 = map_get k h1).
Proof.
  intros now1 now2 h c pd sc h1 h2.
  eexists. split; [unfold h1, recordSighting; apply map_get_set_same|].
  split.
  - unfold h2, recordSighting at 1. rewrite map_get_set_same.
    unfold h1, recordSighting. rewrite map_get_set_same. reflexivity.
  - split; [reflexivity|]. split; [reflexivity|]. split; [reflexivity|]. split.
    + unfold h2, recordSighting at 1. apply map_keys_set_existing.
      unfold map_has, h1, recordSighting. rewrite map_get_set_same. reflexivity.
    + intros k Hk. unfold h2, recordSighting at 1.
      apply map_get_set_other. exact Hk.
Qed.

Lemma C6_recordSighting_idempotent_witness :
  exists e1,
    map_get "uid_shop.com" (recordSighting 1 [] (mkCookie "uid" "shop.com" "7" "/" true false "lax" None) [] 4)
    = Some e1.
Proof.
  destruct (C6_recordSighting_idempotent 1 2 [] (mkCookie "uid" "shop.com" "7" "/" true false "lax" None) [] 4)
    as [e1 [H _]].
  exists e1. exact H.
Defined.

(* ================================================================= *)
(** ** C7: permission records                                          *)
(* ================================================================= *)

Lemma storeConsistent_set (k : string) (p : Permission) (st : SyncStore) :
  permissionConsistent p = true -> storeConsistent st = true ->
  storeConsistent (map_set k (SPermission p) st) = true.
Proof.
  intros Hp. induction st as [|[k0 v0] st IH]; simpl; intros H.
  - rewrite Hp. reflexivity.
  - apply andb_true_iff in H as [H0 H1].
    destruct (String.eqb k k0); simpl.
    + rewrite Hp, H1. reflexivity.
    + rewrite H0, IH by exact H1. reflexivity.
Qed.

Lemma storeConsistent_delete (k : string) (st : SyncStore) :
  storeConsistent st = true -> storeConsistent (map_delete k st) = true.
Proof.
  induction st as [|[k0 v0] st IH]; simpl; intros H; [reflexivity|].
  apply andb_true_iff in H as [H0 H1].
  destruct (String.eqb k k0); simpl; [auto|].
  rewrite H0, IH by exact H1. reflexivity.
Qed.

(** C7: every write of the permission store (the user's
    [handleCookiePermissionsUpdate] with any action and allowed list, the
    auto-block write, and the popup's unblock) keeps every permission
    record's [blocked] flag equal to
    [action = 'block' || (action = 'custom' && allowedDataTypes = [])];
    the record written by a permission update satisfies it outright. *)
Theorem C7_blocked_flag_consistent :
  forall now st cookie pd allowed act,
    (forall p, getPermission (permissionKey cookie)
                 (permissionsUpdateWrite now st cookie pd allowed act) = Some p ->
               p_blocked p = isBlocking (action p) (allowedDataTypes p))
    /\ (storeConsistent st = true ->
        storeConsistent (permissionsUpdateWrite now st cookie pd allowed act) = true
        /\ storeConsistent (autoBlockWrite now st cookie pd) = true
        /\ storeConsistent (permissionRemove st cookie) = true).
Proof.
  intros now st c pd allowed act. split.
  - intros p Hp. unfold getPermission, permissionsUpdateWrite in Hp.
    rewrite map_get_set_same in Hp. inversion Hp; subst p. reflexivity.
  - intros H. split; [|split].
    + apply storeConsistent_set; [|exact H].
      unfold permissionConsistent. simpl. apply Bool.eqb_reflx.
    + apply storeConsistent_set; [reflexivity | exact H].
    + apply storeConsistent_delete. exact H.
Qed.

Lemma C7_blocked_flag_consistent_witness :
  storeConsistent [] = true /\
  storeConsistent (permissionsUpdateWrite 5 [] (mkCookie "cart" "shop.com" "1" "/" true false "lax" None)
                     ["shopping_data"] [] "custom") = true.
Proof.
  split; [reflexivity|].
  apply (proj2 (C7_blocked_flag_consistent 5 [] (mkCookie "cart" "shop.com" "1" "/" true false "lax" None)
                  ["shopping_data"] [] "custom") eq_refl).
Defined.

(* ================================================================= *)
(** ** C10: [updateCookieStats] writes statuses in memory               *)
(* ================================================================= *)

Lemma statsHistoryLoop_ledger (hn : string) (perms : SyncStore) (keys : list string)
    (susp blk : nat) (h : Ledger) :
  let '(_, _, _, h') := statsHistoryLoop hn perms keys susp blk h in
  h' = map (fun '(k, e) =>
              (k, if relatedToSite hn e && blockedByPermission perms e
                  then set_status blocked e else e)) h.
Proof.
  revert keys susp blk. induction h as [|[k e] h IH]; intros keys susp blk; simpl.
  - reflexivity.
  - destruct (relatedToSite hn e) eqn:Er; simpl.
    + destruct (if negb (set_has k keys) then _ else _) as [keys1 susp1].
      destruct (blockedByPermission perms e) eqn:Eb.
      * specialize (IH keys1 susp1 (S blk)).
        destruct (statsHistoryLoop hn perms keys1 susp1 (S blk) h) as [[[? ?] ?] rest].
        rewrite IH. f_equal. f_equal.
        destruct (Status_eqb (status e) blocked) eqn:Es; simpl; [|reflexivity].
        apply Status_eqb_spec in Es. rewrite <- Es. symmetry. apply set_status_same.
      * specialize (IH keys1 susp1 blk).
        destruct (statsHistoryLoop hn perms keys1 susp1 blk h) as [[[? ?] ?] rest].
        rewrite IH. reflexivity.
    + specialize (IH keys susp blk).
      destruct (statsHistoryLoop hn perms keys susp blk h) as [[[? ?] ?] rest].
      rewrite IH. reflexivity.
Qed.

Lemma map_get_map_values (f : HistoryEntry -> HistoryEntry) (k : string) (h : Ledger) :
  map_get k (map (fun '(k0, e) => (k0, f e)) h) = option_map f (map_get k h).
Proof.
  induction h as [|[k0 e] h IH]; simpl; [reflexivity|].
  destruct (String.eqb k k0); [reflexivity | exact IH].
Qed.

(** C10: a successful stats update sets the in-memory status of every
    ledger entry related to the site whose key has a blocking permission
    to [blocked] (every other field, [blockedAt] included, unchanged),
    leaves every other entry and the set of keys unchanged, and does not
    touch the persisted copy of the ledger. *)
Theorem C10_updateCookieStats_marks_blocked :
  forall now s hn cookies perms,
    let s' := fst (updateCookieStats now s (Some (hn, cookies, perms))) in
    storedHistory s' = storedHistory s
    /\ map fst (cookieHistory s') = map fst (cookieHistory s)
    /\ (forall k e, map_get k (cookieHistory s) = Some e ->
          map_get k (cookieHistory s')
          = Some (if relatedToSite hn e && blockedByPermission perms e
                  then set_status blocked e else e)).
Proof.
  intros now s hn cookies perms s'.
  assert (Hh : cookieHistory s'
               = map (fun '(k, e) =>
                        (k, if relatedToSite hn e && blockedByPermission perms e
                            then set_status blocked e else e)) (cookieHistory s)
               /\ storedHistory s' = storedHistory s).
  { unfold s', updateCookieStats, updateCookieStats_body.
    destruct (fold_left (statsLiveStep (activeTabDomain s) now perms) cookies ([], 0, 0)%nat)
      as [[keys susp] allow].
    pose proof (statsHistoryLoop_ledger hn perms keys susp 0%nat (cookieHistory s)) as L.
    destruct (statsHistoryLoop hn perms keys susp 0%nat (cookieHistory s))
      as [[[keys' susp'] blk'] h'].
    simpl. split; [exact L | reflexivity]. }
  destruct Hh as [Hh Hs]. split; [exact Hs|]. split.
  - rewrite Hh, map_map. apply map_ext. intros [k e]. reflexivity.
  - intros k e He. rewrite Hh, map_get_map_values, He. reflexivity.
Qed.

Lemma C10_updateCookieStats_marks_blocked_witness :
  let c := mkCookie "_ga" ".shop.com" "1" "/" true false "lax" None in
  let e := mkEntry c [] 1 10 20 active None None None None None in
  let p := mkPermission [] "block" 5 "_ga" ".shop.com" None true [] in
  map_get (cookieKey c) [(cookieKey c, e)] = Some e /\
  map_get (cookieKey c)
    (cookieHistory (fst (updateCookieStats 30 (mkBgState [(cookieKey c, e)] [] (mkStats 0 0 0 0) "shop.com")
                           (Some ("shop.com", [], [(permissionKey c, SPermission p)])))))
  = Some (set_status blocked e).
Proof.
  intros c e p. split; [reflexivity|].
  eapply eq_trans;
    [exact (proj2 (proj2 (C10_updateCookieStats_marks_blocked 30
             (mkBgState [(cookieKey c, e)] [] (mkStats 0 0 0 0) "shop.com")
             "shop.com" [] [(permissionKey c, SPermission p)])) (cookieKey c) e eq_refl)
    | vm_compute; reflexivity].
Defined.

(* ================================================================= *)
(** ** C4: aggregate stats                                             *)
(* ================================================================= *)

Lemma set_has_In (k : string) (s : list string) : set_has k s = true <-> In k s.
Proof.
  unfold set_has. rewrite existsb_exists. split.
  - intros [x [Hx Hk]]. apply String.eqb_eq in Hk. subst. exact Hx.
  - intros H. exists k. split; [exact H | apply String.eqb_refl].
Qed.

Lemma set_add_new (k : string) (s : list string) :
  ~ In k s -> set_add k s = (s ++ [k])%list.
Proof.
  intros H. unfold set_add. fold (set_has k s).
  destruct (set_has k s) eqn:E; [apply set_has_In in E; contradiction | reflexivity].
Qed.

Lemma set_add_old (k : string) (s : list string) :
  In k s -> set_add k s = s.
Proof.
  intros H. unfold set_add. fold (set_has k s).
  apply set_has_In in H. rewrite H. reflexivity.
Qed.

Lemma NoDup_snoc (s : list string) (k : string) :
  NoDup s -> ~ In k s -> NoDup (s ++ [k])%list.
Proof.
  intros H Hk. apply NoDup_app; [exact H | repeat constructor; simpl; tauto |].
  intros y Hy [Hy'|[]]. subst. contradiction.
Qed.

Lemma set_add_NoDup (k : string) (s : list string) :
  NoDup s -> NoDup (set_add k s) /\ In k (set_add k s) /\ incl s (set_add k s).
Proof.
  intros H. destruct (in_dec string_dec k s) as [Hin|Hin].
  - rewrite set_add_old by exact Hin. split; [exact H|]. split; [exact Hin | apply incl_refl].
  - rewrite set_add_new by exact Hin. split; [apply NoDup_snoc; assumption|].
    split; [apply in_app_iff; simpl; tauto | apply incl_appl, incl_refl].
Qed.

(** A loop over the live cookies that adds each cookie's key to the set
    and increments two counters by at most one per cookie. *)
Lemma live_loop_bound
    (step : list string * nat * nat -> Cookie -> list string * nat * nat)
    (Hstep : forall keys s a c,
        let '(keys', s', a') := step (keys, s, a) c in
        keys' = set_add (cookieKey c) keys /\ (s' <= S s)%nat /\ (a' <= S a)%nat)
    (cookies : list Cookie) :
  forall keys s a,
    NoDup keys -> NoDup (map cookieKey cookies) ->
    (forall c, In c cookies -> ~ In (cookieKey c) keys) ->
    let '(keys', s', a') := fold_left step cookies (keys, s, a) in
    NoDup keys'
    /\ List.length keys' = (List.length keys + List.length cookies)%nat
    /\ (s' <= s + List.length cookies)%nat /\ (a' <= a + List.length cookies)%nat.
Proof.
  induction cookies as [|c cookies IH]; intros keys s a Hk Hc Hfresh; simpl.
  - repeat split; [exact Hk | lia | lia | lia].
  - specialize (Hstep keys s a c).
    destruct (step (keys, s, a) c) as [[keys1 s1] a1] eqn:Es.
    destruct Hstep as [Hk1 [Hs1 Ha1]].
    assert (Hnew : ~ In (cookieKey c) keys) by (apply Hfresh; simpl; tauto).
    rewrite set_add_new in Hk1 by exact Hnew. subst keys1.
    inversion Hc as [|x l Hnotin Hc']; subst.
    specialize (IH (keys ++ [cookieKey c])%list s1 a1 (NoDup_snoc _ _ Hk Hnew) Hc').
    destruct (fold_left step cookies ((keys ++ [cookieKey c])%list, s1, a1))
      as [[keys' s'] a'].
    destruct IH as [H1 [H2 [H3 H4]]].
    + intros c' Hc'' Hin. apply in_app_iff in Hin as [Hin|[Hin|[]]].
      * apply (Hfresh c'); simpl; tauto.
      * apply Hnotin. rewrite Hin. apply in_map. exact Hc''.
    + rewrite length_app in H2. simpl in H2.
      repeat split; [exact H1 | lia | lia | lia].
Qed.

Lemma history_loop_bound (hn : string) (perms : SyncStore) (h : Ledger) :
  forall keys s b,
    NoDup keys -> (s <= List.length keys)%nat ->
    let '(keys', s', b', _) := statsHistoryLoop hn perms keys s b h in
    NoDup keys' /\ (s' <= List.length keys')%nat /\ incl keys keys'
    /\ b' = (b + List.length (filter (blockedEntry hn perms) h))%nat
    /\ incl (map fst (filter (blockedEntry hn perms) h)) keys'.
Proof.
  induction h as [|[k e] h IH]; intros keys s b Hk Hs; simpl.
  - repeat split; [exact Hk | exact Hs | apply incl_refl | lia | intros x []].
  - destruct (relatedToSite hn e) eqn:Er; simpl.
    + destruct (if negb (set_has k keys) then _ else _) as [keys1 s1] eqn:E1.
      assert (Inv1 : NoDup keys1 /\ (s1 <= List.length keys1)%nat /\ incl keys keys1
                     /\ In k keys1).
      { destruct (set_has k keys) eqn:Eh; simpl in E1; inversion E1; subst.
        - apply set_has_In in Eh. repeat split; [exact Hk | exact Hs | apply incl_refl | exact Eh].
        - assert (Hn : ~ In k keys) by (intros Hin; apply set_has_In in Hin; congruence).
          rewrite set_add_new by exact Hn. rewrite length_app. simpl.
          repeat split; [apply NoDup_snoc; assumption | destruct (3 <=? riskScore e)%Z; lia
                        | apply incl_appl, incl_refl | apply in_app_iff; simpl; tauto]. }
      destruct Inv1 as [Hk1 [Hs1 [Hi1 Hin1]]].
      destruct (blockedByPermission perms e) eqn:Eb; simpl.
      * specialize (IH keys1 s1 (S b) Hk1 Hs1).
        destruct (statsHistoryLoop hn perms keys1 s1 (S b) h) as [[[keys' s'] b'] rest].
        destruct IH as [H1 [H2 [H3 [H4 H5]]]].
        repeat split; [exact H1 | exact H2 | eapply incl_tran; eassumption | simpl; lia |].
        intros x [Hx|Hx]; [subst x; apply H3, Hin1 | apply H5, Hx].
      * specialize (IH keys1 s1 b Hk1 Hs1).
        destruct (statsHistoryLoop hn perms keys1 s1 b h) as [[[keys' s'] b'] rest].
        destruct IH as [H1 [H2 [H3 [H4 H5]]]].
        repeat split; [exact H1 | exact H2 | eapply incl_tran; eassumption | exact H4 | exact H5].
    + specialize (IH keys s b Hk Hs).
      destruct (statsHistoryLoop hn perms keys s b h) as [[[keys' s'] b'] rest].
      exact IH.
Qed.

Lemma NoDup_map_fst_filter {V} (f : string * V -> bool) (l : list (string * V)) :
  NoDup (map fst l) -> NoDup (map fst (filter f l)).
Proof.
  induction l as [|x l IH]; simpl; intros H; [constructor|].
  inversion H as [|? ? Hx Hl]; subst.
  destruct (f x); simpl; [|auto].
  constructor; [|auto].
  intros Hin. apply Hx. apply in_map_iff in Hin as [y [Hy Hin]].
  apply filter_In in Hin as [Hin _]. rewrite <- Hy. apply in_map. exact Hin.
Qed.

Lemma statsLiveStep_shape (a : string) (now : Z) (perms : SyncStore) :
  forall keys s al c,
    let '(keys', s', a') := statsLiveStep a now perms (keys, s, al) c in
    keys' = set_add (cookieKey c) keys /\ (s' <= S s)%nat /\ (a' <= S al)%nat.
Proof.
  intros keys s al c. unfold statsLiveStep.
  repeat split; [destruct (3 <=? _)%Z | destruct (countsAsAllowed _)]; lia.
Qed.

Lemma popupLiveStep_shape (now : Z) (u : TabUrl) (perms : SyncStore) :
  forall keys s al c,
    let '(keys', s', a') := popupLiveStep now u perms (keys, s, al) c in
    keys' = set_add (cookieKey c) keys /\ (s' <= S s)%nat /\ (a' <= S al)%nat.
Proof.
  intros keys s al c. unfold popupLiveStep.
  repeat split; [destruct (3 <=? _)%Z | destruct (countsAsAllowed _)]; lia.
Qed.

Lemma popup_perm_loop_bound (st : SyncStore) :
  forall keys s b,
    NoDup keys -> (s <= List.length keys)%nat ->
    let '(keys', s', b') := fold_left popupPermStep st (keys, s, b) in
    NoDup keys' /\ (s' <= List.length keys')%nat /\ incl keys keys'
    /\ b' = (b + List.length (filter blockedStored st))%nat
    /\ incl (map storedCookieKey (filter blockedStored st)) keys'.
Proof.
  induction st as [|[k v] st IH]; intros keys s b Hk Hs; simpl.
  - repeat split; [exact Hk | exact Hs | apply incl_refl | lia | intros x []].
  - destruct v as [p|bv]; simpl;
      [|specialize (IH keys s b Hk Hs);
        destruct (fold_left popupPermStep st (keys, s, b)) as [[keys' s'] b'];
        exact IH].
    destruct (startsWith k "cookie_" && p_blocked p) eqn:Eb; simpl;
      [|specialize (IH keys s b Hk Hs);
        destruct (fold_left popupPermStep st (keys, s, b)) as [[keys' s'] b'];
        exact IH].
    destruct (if negb (set_has (permCookieKey p) keys) then _ else _) as [keys1 s1] eqn:E1.
    assert (Inv1 : NoDup keys1 /\ (s1 <= List.length keys1)%nat /\ incl keys keys1
                   /\ In (permCookieKey p) keys1).
    { destruct (set_has (permCookieKey p) keys) eqn:Eh; simpl in E1; inversion E1; subst.
      - apply set_has_In in Eh. repeat split; [exact Hk | exact Hs | apply incl_refl | exact Eh].
      - assert (Hn : ~ In (permCookieKey p) keys)
          by (intros Hin; apply set_has_In in Hin; congruence).
        rewrite set_add_new by exact Hn. rewrite length_app. simpl.
        repeat split; [apply NoDup_snoc; assumption
                      | match goal with |- context [if ?c then _ else _] => destruct c end; lia
                      | apply incl_appl, incl_refl | apply in_app_iff; simpl; tauto]. }
    destruct Inv1 as [Hk1 [Hs1 [Hi1 Hin1]]].
    specialize (IH keys1 s1 (S b) Hk1 Hs1).
    destruct (fold_left popupPermStep st (keys1, s1, S b)) as [[keys' s'] b'].
    destruct IH as [H1 [H2 [H3 [H4 H5]]]].
    repeat split; [exact H1 | exact H2 | eapply incl_tran; eassumption | simpl; lia |].
    intros x [Hx|Hx]; [subst x; apply H3, Hin1 | apply H5, Hx].
Qed.

Lemma append_prefix_inj (p a b : string) : p ++ a = p ++ b -> a = b.
Proof.
  induction p as [|c p IH]; simpl; intros H; [exact H|].
  inversion H. apply IH. assumption.
Qed.

Lemma wellKeyed_blocked_NoDup (st : SyncStore) :
  wellKeyedStore st -> NoDup (map storedCookieKey (filter blockedStored st)).
Proof.
  intros [Hnd Hk].
  assert (Hsub : forall x, In x (filter blockedStored st) -> In x st)
    by (intros x Hx; apply filter_In in Hx; tauto).
  assert (Hnd' := NoDup_map_fst_filter blockedStored st Hnd).
  assert (Hperm : forall x, In x (filter blockedStored st) ->
                  exists p, snd x = SPermission p /\ fst x = "cookie_" ++ permCookieKey p).
  { intros [k v] Hx. apply filter_In in Hx as [Hin Hb].
    destruct v as [p|]; [|discriminate]. exists p. split; [reflexivity|].
    apply Hk. exact Hin. }
  clear Hk Hsub Hnd.
  induction (filter blockedStored st) as [|x l IH]; simpl; [constructor|].
  inversion Hnd' as [|? ? Hx Hl]; subst.
  constructor.
  - intros Hin. apply in_map_iff in Hin as [y [Hy Hyl]].
    destruct (Hperm x (or_introl eq_refl)) as [px [Hpx Hfx]].
    destruct (Hperm y (or_intror Hyl)) as [py [Hpy Hfy]].
    apply Hx. unfold storedCookieKey in Hy. rewrite Hpx, Hpy in Hy.
    rewrite Hfx, <- Hy, <- Hfy. apply in_map. exact Hyl.
  - apply IH; [exact Hl|]. intros z Hz. apply Hperm. right. exact Hz.
Qed.

(** C4 (counterexample): two live cookies with the same name and domain
    (paths [/] and [/app]), both scored 3 or more and with an ['allow']
    permission record under their key, are counted once in [total] but
    once each in [suspicious] and in [allowed]: the background's stats
    update and the popup's [updateStats] (on a well-keyed store) both give
    [total = 1], [suspicious = 2] and [allowed = 2]. *)
Lemma C4_suspicious_exceeds_total :
  (let st := fst (updateCookieStats_body "shop.com" 0 "shop.com"
                    [mkCookie "_ga" "tracker.net" "1" "/" false false "lax" None;
          mkCookie "_ga" "tracker.net" "1" "/app" false false "lax" None]
                    [("cookie__ga_tracker.net",
           SPermission (mkPermission [] "allow" 0 "_ga" "tracker.net" None false []))] []) in
   (total st < suspicious st)%nat /\ (total st < allowed st)%nat)
  /\ wellKeyedStore [("cookie__ga_tracker.net",
           SPermission (mkPermission [] "allow" 0 "_ga" "tracker.net" None false []))]
  /\ exists st,
       updateStats_popup 0 (Some (mkTabUrl "https://shop.com/" "shop.com"))
         [mkCookie "_ga" "tracker.net" "1" "/" false false "lax" None;
          mkCookie "_ga" "tracker.net" "1" "/app" false false "lax" None]
         [("cookie__ga_tracker.net",
           SPermission (mkPermission [] "allow" 0 "_ga" "tracker.net" None false []))] = Some st
       /\ (total st < suspicious st)%nat /\ (total st < allowed st)%nat.
Proof.
  split; [vm_compute; split; lia|]. split.
  - split; [repeat constructor; simpl; tauto|].
    intros k p [Hk|[]]. inversion Hk. reflexivity.
  - eexists. split; [vm_compute; reflexivity|]. cbn. split; lia.
Qed.

(** C4 (amended): when the live cookies have pairwise distinct
    [name_domain] keys, the stats computed by the background's
    [updateCookieStats] (with a ledger of distinct keys) and by the
    popup's [updateStats] (with a store whose permission records sit
    under their own [cookie_] keys) satisfy suspicious <= total,
    blocked <= total and allowed <= total, where total is the number of
    distinct keys the update collected. *)
Theorem C4_stats_bounded :
  (forall activeDomain now hn cookies perms h,
      NoDup (map cookieKey cookies) -> NoDup (map fst h) ->
      let st := fst (updateCookieStats_body activeDomain now hn cookies perms h) in
      (suspicious st <= total st)%nat /\ (blocked_count st <= total st)%nat
      /\ (allowed st <= total st)%nat)
  /\ (forall now u cookies store st,
      NoDup (map cookieKey cookies) -> wellKeyedStore store ->
      updateStats_popup now (Some u) cookies store = Some st ->
      (suspicious st <= total st)%nat /\ (blocked_count st <= total st)%nat
      /\ (allowed st <= total st)%nat).
Proof.
  split.
  - intros a now hn cookies perms h Hc Hh st.
    unfold st, updateCookieStats_body.
    pose proof (live_loop_bound (statsLiveStep a now perms) (statsLiveStep_shape a now perms)
                  cookies [] 0%nat 0%nat (NoDup_nil _) Hc (fun c _ H => H)) as L.
    destruct (fold_left (statsLiveStep a now perms) cookies ([], 0, 0)%nat)
      as [[keys s] al].
    destruct L as [L1 [L2 [L3 L4]]]. simpl in L2, L3, L4.
    pose proof (history_loop_bound hn perms h keys s 0%nat L1 ltac:(lia)) as R.
    destruct (statsHistoryLoop hn perms keys s 0%nat h) as [[[keys' s'] b'] h'].
    destruct R as [R1 [R2 [R3 [R4 R5]]]]. simpl.
    pose proof (NoDup_incl_length L1 R3) as I1.
    pose proof (NoDup_incl_length (NoDup_map_fst_filter _ h Hh) R5) as I2.
    rewrite length_map in I2. lia.
  - intros now u cookies store st Hc Hs Hst.
    unfold updateStats_popup in Hst.
    pose proof (live_loop_bound (popupLiveStep now u store) (popupLiveStep_shape now u store)
                  cookies [] 0%nat 0%nat (NoDup_nil _) Hc (fun c _ H => H)) as L.
    destruct (fold_left (popupLiveStep now u store) cookies ([], 0, 0)%nat)
      as [[keys s] al].
    destruct L as [L1 [L2 [L3 L4]]]. simpl in L2, L3, L4.
    pose proof (popup_perm_loop_bound store keys s 0%nat L1 ltac:(lia)) as R.
    destruct (fold_left popupPermStep store (keys, s, 0%nat)) as [[keys' s'] b'].
    destruct R as [R1 [R2 [R3 [R4 R5]]]].
    inversion Hst; subst st; simpl.
    pose proof (NoDup_incl_length L1 R3) as I1.
    pose proof (NoDup_incl_length (wellKeyed_blocked_NoDup store Hs) R5) as I2.
    rewrite length_map in I2. lia.
Qed.

Lemma C4_stats_bounded_witness :
  fst (updateCookieStats_body "shop.com" 0 "shop.com"
    [mkCookie "_ga" "tracker.net" "1" "/" false false "lax" None;
    mkCookie "theme" "shop.com" "dark" "/" true false "lax" None]
    [("cookie_theme_shop.com",
     SPermission (mkPermission [] "allow" 0 "theme" "shop.com" None false []));
    ("cookie__fbp_shop.com",
     SPermission (mkPermission [] "block" 0 "_fbp" "shop.com" None true
                    ["tracking"; "analytics"; "marketing_data"]))]
    [("_fbp_shop.com",
     mkEntry (mkCookie "_fbp" "shop.com" "fb.1" "/" false false "lax" None)
       ["tracking"] 4 0 0 active None None None None None);
    ("theme_shop.com",
     mkEntry (mkCookie "theme" "shop.com" "dark" "/" true false "lax" None)
       [] 0 0 0 active None None None None None)])
  = mkStats 3 2 1 1
  /\ updateStats_popup 0 (Some (mkTabUrl "https://shop.com/" "shop.com"))
    [mkCookie "_ga" "tracker.net" "1" "/" false false "lax" None;
    mkCookie "theme" "shop.com" "dark" "/" true false "lax" None]
    [("cookie_theme_shop.com",
     SPermission (mkPermission [] "allow" 0 "theme" "shop.com" None false []));
    ("cookie__fbp_shop.com",
     SPermission (mkPermission [] "block" 0 "_fbp" "shop.com" None true
                    ["tracking"; "analytics"; "marketing_data"]))]
  = Some (mkStats 3 2 1 1)
  /\ (let st := mkStats 3 2 1 1 in
      (suspicious st <= total st)%nat /\ (blocked_count st <= total st)%nat
      /\ (allowed st <= total st)%nat)
  /\ (let st := mkStats 3 2 1 1 in
      (suspicious st <= total st)%nat /\ (blocked_count st <= total st)%nat
      /\ (allowed st <= total st)%nat).
Proof.
  pose (cs := [mkCookie "_ga" "tracker.net" "1" "/" false false "lax" None;
              mkCookie "theme" "shop.com" "dark" "/" true false "lax" None]).
  pose (st := [("cookie_theme_shop.com",
               SPermission (mkPermission [] "allow" 0 "theme" "shop.com" None false []));
              ("cookie__fbp_shop.com",
               SPermission (mkPermission [] "block" 0 "_fbp" "shop.com" None true
                              ["tracking"; "analytics"; "marketing_data"]))]).
  pose (h := [("_fbp_shop.com",
              mkEntry (mkCookie "_fbp" "shop.com" "fb.1" "/" false false "lax" None)
                ["tracking"] 4 0 0 active None None None None None);
             ("theme_shop.com",
              mkEntry (mkCookie "theme" "shop.com" "dark" "/" true false "lax" None)
                [] 0 0 0 active None None None None None)]).
  assert (E1 : fst (updateCookieStats_body "shop.com" 0 "shop.com" cs st h) = mkStats 3 2 1 1)
    by (vm_compute; reflexivity).
  assert (E2 : updateStats_popup 0 (Some (mkTabUrl "https://shop.com/" "shop.com")) cs st = Some (mkStats 3 2 1 1))
    by (vm_compute; reflexivity).
  assert (Hc : NoDup (map cookieKey cs))
    by (repeat constructor; simpl; intuition discriminate).
  assert (Hh : NoDup (map fst h))
    by (repeat constructor; simpl; intuition discriminate).
  assert (Hs : wellKeyedStore st).
  { split; [repeat constructor; simpl; intuition discriminate|].
    intros k p [Hk|[Hk|[]]]; inversion Hk; reflexivity. }
  pose proof (proj1 C4_stats_bounded "shop.com" 0%Z "shop.com" cs st h Hc Hh) as B1.
  pose proof (proj2 C4_stats_bounded 0%Z (mkTabUrl "https://shop.com/" "shop.com") cs st (mkStats 3 2 1 1) Hc Hs E2) as B2.
  cbv zeta in B1. rewrite E1 in B1.
  split; [exact E1|]. split; [exact E2|]. split; [exact B1 | exact B2].
Defined.

(* ================================================================= *)
(** ** C3: the merged view                                             *)
(* ================================================================= *)

Lemma NoDup_map_transfer {A B C} (f : A -> B) (g : A -> C) (l : list A) :
  NoDup (map g l) ->
  (forall x y, In x l -> In y l -> f x = f y -> g x = g y) ->
  NoDup (map f l).
Proof.
  induction l as [|x l IH]; simpl; intros Hg Hfg; [constructor|].
  inversion Hg as [|? ? Hx Hl]; subst.
  constructor.
  - intros Hin. apply in_map_iff in Hin as [y [Hy Hyl]].
    apply Hx. rewrite <- (Hfg y x); [apply in_map; exact Hyl | right; exact Hyl | left; reflexivity | exact Hy].
  - apply IH; [exact Hl|]. intros y z Hy Hz. apply Hfg; right; assumption.
Qed.

(** C3 (counterexample): two live cookies with the same name and domain
    (paths [/] and [/app]) both appear in the merged view. *)
Lemma C3_duplicate_live_key :
  ~ (forall activeDomain now hn cookies perms h,
        NoDup (map mergedPair (mergedView activeDomain now hn cookies perms h))).
Proof.
  intros H.
  specialize (H "shop.com" 0%Z "shop.com"
                [mkCookie "_ga" ".shop.com" "1" "/" true false "lax" None;
                 mkCookie "_ga" ".shop.com" "2" "/app" true false "lax" None] [] []).
  vm_compute in H. inversion H as [|? ? Hx _]. apply Hx. left. reflexivity.
Qed.

(** C3 (amended): when the live cookies have pairwise distinct
    (name, domain) pairs and every ledger entry sits under its own
    [name_domain] key, the merged view has no duplicate (name, domain)
    pair; every live cookie appears with its live name, domain, value,
    path and flags, but with the categories, risk score and
    firstSeen/lastSeen of its ledger entry when one exists; and every
    ledger entry related to the site is represented by an element with
    its key. *)
Theorem C3_mergedView_dedup :
  forall activeDomain now hn cookies perms h,
    NoDup (map (fun c => (name c, domain c)) cookies) ->
    NoDup (map fst h) ->
    (forall k e, In (k, e) h -> k = cookieKey (h_cookie e)) ->
    let view := mergedView activeDomain now hn cookies perms h in
    NoDup (map mergedPair view)
    /\ (forall c, In c cookies ->
          exists m, In m view /\ mergedPair m = (name c, domain c)
                    /\ m_value m = value c /\ m_path m = path c
                    /\ m_secure m = secure c /\ m_httpOnly m = httpOnly c
                    /\ m_sameSite m = sameSite c
                    /\ m_expirationDate m = expirationDate c
                    /\ (forall e, map_get (cookieKey c) h = Some e ->
                          m_potentialData m = potentialData e
                          /\ m_riskScore m = riskScore e
                          /\ m_firstSeen m = firstSeen e /\ m_lastSeen m = lastSeen e))
    /\ (forall k e, In (k, e) h -> relatedToSite hn e = true ->
          exists m, In m view /\ mergedKey m = k).
Proof.
  intros a now hn cookies perms h Hc Hh Hk view.
  set (P := fun ke : string * HistoryEntry =>
              let '(k, e) := ke in
              negb (set_has k (map cookieKey cookies)) && relatedToSite hn e).
  assert (Hview : view = (map (mergeLive a now h perms) cookies
                          ++ map (fun '(_, e) => mergeHistory perms e) (filter P h))%list)
    by reflexivity.
  split; [|split].
  - rewrite Hview, map_app, !map_map. apply NoDup_app.
    + exact Hc.
    + apply (NoDup_map_transfer _ fst); [apply NoDup_map_fst_filter; exact Hh|].
      intros [k1 e1] [k2 e2] H1 H2 Heq.
      apply filter_In in H1 as [H1 _]. apply filter_In in H2 as [H2 _].
      simpl. rewrite (Hk _ _ H1), (Hk _ _ H2).
      unfold mergedPair, mergeHistory in Heq. simpl in Heq. inversion Heq.
      unfold cookieKey. congruence.
    + intros x Hx1 Hx2.
      apply in_map_iff in Hx1 as [c [Hcx Hcin]].
      apply in_map_iff in Hx2 as [[k e] [Hex Hein]].
      apply filter_In in Hein as [Hein HP]. simpl in HP.
      apply andb_true_iff in HP as [HP _].
      assert (Hkc : k = cookieKey c).
      { rewrite (Hk _ _ Hein). unfold mergedPair, mergeHistory, mergeLive in *.
        simpl in *. rewrite <- Hcx in Hex. inversion Hex. unfold cookieKey. congruence. }
      assert (set_has k (map cookieKey cookies) = true).
      { apply set_has_In. rewrite Hkc. apply in_map. exact Hcin. }
      rewrite H in HP. discriminate.
  - intros c Hcin. exists (mergeLive a now h perms c).
    split; [rewrite Hview; apply in_app_iff; left; apply in_map; exact Hcin|].
    unfold mergeLive, mergedPair; simpl.
    do 7 (split; [reflexivity|]). intros e0 He0. rewrite He0. repeat split.
  - intros k e Hin Hrel.
    destruct (set_has k (map cookieKey cookies)) eqn:Ep.
    + apply set_has_In in Ep. apply in_map_iff in Ep as [c [Hck Hcin]].
      exists (mergeLive a now h perms c).
      split; [rewrite Hview; apply in_app_iff; left; apply in_map; exact Hcin|].
      rewrite <- Hck. reflexivity.
    + exists (mergeHistory perms e).
      split.
      * rewrite Hview. apply in_app_iff. right.
        apply in_map_iff. exists (k, e). split; [reflexivity|].
        apply filter_In. split; [exact Hin|]. simpl. rewrite Ep, Hrel. reflexivity.
      * rewrite (Hk _ _ Hin). reflexivity.
Qed.

Lemma C3_mergedView_dedup_witness :
  NoDup (map mergedPair (mergedView "shop.com" 0 "shop.com"
                           [mkCookie "_ga" ".shop.com" "1" "/" true false "lax" None] []
                           [("sid_shop.com",
                             mkEntry (mkCookie "sid" "shop.com" "x" "/" true true "lax" None)
                               ["session_data"] 3 10 20 blocked (Some 20%Z) None None None None)])).
Proof.
  refine (proj1 (C3_mergedView_dedup "shop.com" 0%Z "shop.com"
                   [mkCookie "_ga" ".shop.com" "1" "/" true false "lax" None] []
                   [("sid_shop.com",
                     mkEntry (mkCookie "sid" "shop.com" "x" "/" true true "lax" None)
                       ["session_data"] 3 10 20 blocked (Some 20%Z) None None None None)]
                   _ _ _)).
  - repeat constructor; simpl; tauto.
  - repeat constructor; simpl; tauto.
  - intros k e [H|[]]. inversion H. reflexivity.
Defined.

(* ================================================================= *)
(** ** C2: risk levels                                                 *)
(* ================================================================= *)

(** C2 (counterexample): the content-script warning derives its level
    from the category count: the [_ga] cookie of [tracker.net] seen from
    [shop.com] scores 4 ([medium] by the score thresholds) and is sent as
    [SUSPICIOUS_COOKIE], but the warning shows it as [low] (no category). *)
Lemma C2_content_level_from_count :
  ~ (forall activeDomain now cookie,
        let pd := detectPotentialData cookie in
        let sc := calculateRiskScore activeDomain now cookie (Some pd) in
        analyzeCookie true cookie pd sc <> None ->
        fst (contentWarning cookie sc) = riskLevelOfScore sc).
Proof.
  intros H.
  specialize (H "shop.com" 0%Z (mkCookie "_ga" "tracker.net" "123" "/" false false "lax" None)).
  vm_compute in H. specialize (H ltac:(discriminate)). discriminate H.
Qed.

(** C2 (amended): every element of the merged view (and so of the
    export) and every cookie analysed by the popup carries the level
    [riskLevelOfScore] of its final score (>= 5 high, >= 3 medium, else
    low); the content-script warning instead uses [getRiskLevel] of its
    own category count (>= 3 high, >= 1 medium, else low). *)
Theorem C2_risk_level_paths :
  (forall activeDomain now hn cookies perms h m,
      In m (mergedView activeDomain now hn cookies perms h) ->
      m_riskLevel m = riskLevelOfScore (m_riskScore m))
  /\ (forall now u store pc,
      an_riskLevel (analyzeCookieData_popup now u store pc)
      = riskLevelOfScore (an_riskScore (analyzeCookieData_popup now u store pc)))
  /\ (forall cookie sc,
      contentWarning cookie sc
      = (getRiskLevel (List.length (detectPotentialData_content (name cookie) (Some (value cookie)))),
         sc)).
Proof.
  split; [|split].
  - intros a now hn cookies perms h m Hm.
    unfold mergedView in Hm. apply in_app_iff in Hm as [Hm|Hm].
    + apply in_map_iff in Hm as [c [<- _]]. reflexivity.
    + apply in_map_iff in Hm as [[k e] [<- _]]. reflexivity.
  - intros now u store pc. reflexivity.
  - intros cookie sc. reflexivity.
Qed.

Lemma C2_risk_level_paths_witness :
  m_riskLevel (mergeLive "shop.com" 0 [] [] (mkCookie "_ga" "tracker.net" "123" "/" false false "lax" None))
  = riskLevelOfScore (m_riskScore (mergeLive "shop.com" 0 [] []
                        (mkCookie "_ga" "tracker.net" "123" "/" false false "lax" None))).
Proof.
  apply (proj1 C2_risk_level_paths "shop.com" 0%Z "shop.com"
           [mkCookie "_ga" "tracker.net" "123" "/" false false "lax" None] [] []).
  left. reflexivity.
Defined.

(* ================================================================= *)
(** ** C9: the message handler                                          *)
(* ================================================================= *)

(** C9 (code defect): a [GET_COOKIE_STATS] request is never answered
    when the current window has no active tab or the active tab has no
    URL: the handler's callback only calls [sendResponse] inside
    [if (tabs.length > 0 && tabs[0].url)]. *)
Theorem C9_stats_request_unanswered :
  forall now s env,
    (env_tabs env = [] -> onMessage now s env GET_COOKIE_STATS = [])
    /\ (forall t rest, env_tabs env = t :: rest -> tab_url t = None ->
        onMessage now s env GET_COOKIE_STATS = []).
Proof.
  intros now s env. split.
  - intros H. simpl. rewrite H. reflexivity.
  - intros t rest H Ht. simpl. rewrite H, Ht. reflexivity.
Qed.

Lemma C9_stats_request_unanswered_witness :
  onMessage 0 (mkBgState [] [] (mkStats 0 0 0 0) "") (mkEnv [] true None None None)
    GET_COOKIE_STATS = []
  /\ onMessage 0 (mkBgState [] [] (mkStats 0 0 0 0) "") (mkEnv [] true None None None)
       GET_ACTIVE_TAB = [RTab None].
Proof.
  split; [|reflexivity].
  exact (proj1 (C9_stats_request_unanswered 0%Z (mkBgState [] [] (mkStats 0 0 0 0) "")
                  (mkEnv [] true None None None)) eq_refl).
Defined.

(* ================================================================= *)
(** ** Further properties: the scorer                                  *)
(* ================================================================= *)

Lemma filter_length_le {A} (f : A -> bool) (l : list A) :
  (List.length (filter f l) <= List.length l)%nat.
Proof.
  induction l as [|x l IH]; simpl; [lia|]. destruct (f x); simpl; lia.
Qed.

(** [calculateRiskScore] (background.js 298-330) on a classification [pd]
    lies between the number of categories and that number plus 13: at
    most 9 tracker patterns, 2 for third party, 1 for a long expiry and 1
    for an insecure cookie. *)
Theorem calculateRiskScore_bounds (activeTab : string) (now : Z) (cookie : Cookie)
    (pd : list string) :
  (Z.of_nat (List.length pd) <= calculateRiskScore activeTab now cookie (Some pd)
   <= Z.of_nat (List.length pd) + 13)%Z.
Proof.
  unfold calculateRiskScore. rewrite fold_count_Z.
  pose proof (filter_length_le (includes (toLowerCase (name cookie ++ value cookie)))
                trackingPatterns) as Hf.
  simpl (List.length trackingPatterns) in Hf.
  destruct (truthy_str activeTab && negb (isSameDomain (domain cookie) activeTab));
  destruct (longLived now (expirationDate cookie));
  destruct (negb (secure cookie) && truthy_str (domain cookie)
            && negb (startsWith (domain cookie) "http")); lia.
Qed.

(* ================================================================= *)
(** ** Further properties: blocking decisions and permission updates    *)
(* ================================================================= *)

Lemma map_delete_get_same {V} (k : string) (m : JsMap V) :
  map_get k (map_delete k m) = None.
Proof.
  induction m as [|[k0 v0] m IH]; simpl; [reflexivity|].
  destruct (String.eqb_spec k k0) as [->|Hne]; [exact IH|].
  simpl. apply String.eqb_neq in Hne. rewrite Hne. exact IH.
Qed.

Lemma map_get_In {V} (k : string) (v : V) (m : JsMap V) :
  map_get k m = Some v -> In (k, v) m.
Proof.
  induction m as [|[k0 v0] m IH]; simpl; [discriminate|].
  destruct (String.eqb_spec k k0) as [->|_]; intros H.
  - inversion H. left. reflexivity.
  - right. apply IH. exact H.
Qed.

Lemma permissionKey_inj (c c' : Cookie) :
  permissionKey c' = permissionKey c -> cookieKey c' = cookieKey c.
Proof. unfold permissionKey. apply append_prefix_inj. Qed.

Lemma shouldBlockCookie_write_cases (now : Z) (st : SyncStore) (cookie other : Cookie)
    (pd allowed : list string) (act : string) :
  shouldBlockCookie (permissionsUpdateWrite now st cookie pd allowed act) cookie
    = isBlocking act allowed
  /\ shouldBlockCookie (autoBlockWrite now st cookie pd) cookie = true
  /\ shouldBlockCookie (permissionRemove st cookie) cookie = false
  /\ (permissionKey other <> permissionKey cookie ->
      shouldBlockCookie (permissionsUpdateWrite now st cookie pd allowed act) other
        = shouldBlockCookie st other
      /\ shouldBlockCookie (autoBlockWrite now st cookie pd) other = shouldBlockCookie st other
      /\ shouldBlockCookie (permissionRemove st cookie) other = shouldBlockCookie st other).
Proof.
  unfold shouldBlockCookie, permissionsUpdateWrite, autoBlockWrite, permissionRemove.
  split; [rewrite map_get_set_same; reflexivity|].
  split; [rewrite map_get_set_same; reflexivity|].
  split; [rewrite map_delete_get_same; reflexivity|].
  intros Hne. rewrite !map_get_set_other by exact Hne.
  rewrite map_delete_get_other by exact Hne. auto.
Qed.

(** [shouldBlockCookie] after each write to a permission key: the user's
    update makes it [isBlocking(action, allowedDataTypes)], the auto-block
    write makes it true, the popup's unblock ([storage.sync.remove]) makes
    it false, and none of them changes the decision for another key. *)
Theorem shouldBlockCookie_after_writes (now : Z) (st : SyncStore) (cookie other : Cookie)
    (pd allowed : list string) (act : string) :
  shouldBlockCookie (permissionsUpdateWrite now st cookie pd allowed act) cookie
    = isBlocking act allowed
  /\ shouldBlockCookie (autoBlockWrite now st cookie pd) cookie = true
  /\ shouldBlockCookie (permissionRemove st cookie) cookie = false
  /\ (permissionKey other <> permissionKey cookie ->
      shouldBlockCookie (permissionsUpdateWrite now st cookie pd allowed act) other
        = shouldBlockCookie st other
      /\ shouldBlockCookie (autoBlockWrite now st cookie pd) other = shouldBlockCookie st other
      /\ shouldBlockCookie (permissionRemove st cookie) other = shouldBlockCookie st other).
Proof. apply shouldBlockCookie_write_cases. Qed.

Lemma shouldBlockCookie_after_writes_witness :
  permissionKey (mkCookie "b" "x.com" "" "/" true false "" None)
    <> permissionKey (mkCookie "a" "x.com" "" "/" true false "" None)
  /\ shouldBlockCookie
       (permissionsUpdateWrite 7 [] (mkCookie "a" "x.com" "" "/" true false "" None) []
          [] "custom") (mkCookie "a" "x.com" "" "/" true false "" None) = true.
Proof.
  split; [discriminate|].
  rewrite (proj1 (shouldBlockCookie_after_writes 7%Z []
                    (mkCookie "a" "x.com" "" "/" true false "" None)
                    (mkCookie "b" "x.com" "" "/" true false "" None) [] [] "custom")).
  reflexivity.
Defined.

(** On a store whose cached flags agree with their recomputation (every
    write keeps this), the background's [shouldBlockCookie] and the
    [blocked] flag the stats and the popups read give the same answer. *)
Theorem shouldBlockCookie_matches_flag (st : SyncStore) (cookie : Cookie) :
  storeConsistent st = true ->
  shouldBlockCookie st cookie
  = match getPermission (permissionKey cookie) st with
    | Some p => p_blocked p
    | None => false
    end.
Proof.
  intros Hc. unfold shouldBlockCookie, getPermission.
  destruct (map_get (permissionKey cookie) st) as [[p|b]|] eqn:E; try reflexivity.
  apply map_get_In in E. unfold storeConsistent in Hc. rewrite forallb_forall in Hc.
  specialize (Hc _ E). simpl in Hc. unfold permissionConsistent in Hc.
  apply Bool.eqb_prop in Hc. symmetry. exact Hc.
Qed.

Lemma shouldBlockCookie_matches_flag_witness :
  shouldBlockCookie
    (autoBlockWrite 1 [("autoBlockHighRisk", SSetting true)]
       (mkCookie "a" "x.com" "" "/" true false "" None) [])
    (mkCookie "a" "x.com" "" "/" true false "" None) = true.
Proof.
  rewrite (shouldBlockCookie_matches_flag
             (autoBlockWrite 1 [("autoBlockHighRisk", SSetting true)]
                (mkCookie "a" "x.com" "" "/" true false "" None) [])
             (mkCookie "a" "x.com" "" "/" true false "" None) eq_refl).
  reflexivity.
Defined.

Lemma updateActiveTabStats_ledger (now : Z) (s : BgState) (st : SyncStore)
    (tabs : list Tab) (reads : option (string * list Cookie)) :
  exists f : HistoryEntry -> HistoryEntry,
    (forall e, f e = e \/ (f e = set_status blocked e /\ blockedByPermission st e = true))
    /\ cookieHistory (updateActiveTabStats now s st tabs reads)
       = map (fun '(k, e) => (k, f e)) (cookieHistory s)
    /\ storedHistory (updateActiveTabStats now s st tabs reads) = storedHistory s.
Proof.
  assert (Id : exists f : HistoryEntry -> HistoryEntry,
            (forall e, f e = e \/ (f e = set_status blocked e /\ blockedByPermission st e = true))
            /\ cookieHistory s = map (fun '(k, e) => (k, f e)) (cookieHistory s)
            /\ storedHistory s = storedHistory s).
  { exists (fun e => e). split; [left; reflexivity|]. split; [|reflexivity].
    induction (cookieHistory s) as [|[k e] h IH]; simpl; [reflexivity | rewrite <- IH; reflexivity]. }
  unfold updateActiveTabStats.
  destruct tabs as [|t rest]; [exact Id|].
  destruct (tab_url t) as [url|]; [|exact Id].
  destruct (truthy_str url); [|exact Id].
  destruct reads as [[hn cs]|]; [|exact Id].
  simpl. unfold updateCookieStats_body.
  destruct (fold_left (statsLiveStep (activeTabDomain s) now st) cs ([], 0, 0)%nat)
    as [[keys susp] allow].
  pose proof (statsHistoryLoop_ledger hn st keys susp 0%nat (cookieHistory s)) as L.
  destruct (statsHistoryLoop hn st keys susp 0%nat (cookieHistory s)) as [[[k' s'] b'] h'].
  simpl. exists (fun e => if relatedToSite hn e && blockedByPermission st e
                     then set_status blocked e else e).
  split; [|split; [exact L | reflexivity]].
  intros e. destruct (relatedToSite hn e); simpl; [|left; reflexivity].
  destruct (blockedByPermission st e) eqn:Eb; [right; split; reflexivity | left; reflexivity].
Qed.

(** [handleCookiePermissionsUpdate] on a cookie with a history entry
    stored under its own key, when the permission write succeeds: the
    new record blocks exactly for ['block'] or for ['custom'] with no
    allowed type; the entry's status becomes [blocked] exactly then (the
    trailing stats update does not change it), [blockedAt] is set only
    when blocking and kept otherwise, the user action and allowed types
    are recorded, the classification, score and timestamps are kept, and
    the persisted copy holds the same entry. The persisted copy of every
    other key is the ledger as it was before the call; in memory, another
    entry is either unchanged or set to [blocked] by the stats update,
    and then its stored permission blocks it. *)
Theorem handleCookiePermissionsUpdate_history (now : Z) (s : BgState) (st : SyncStore)
    (cookie : Cookie) (pd allowed : list string) (act : string) (tabs : list Tab)
    (reads : option (string * list Cookie)) (e : HistoryEntry) :
  map_get (cookieKey cookie) (cookieHistory s) = Some e ->
  cookieKey (h_cookie e) = cookieKey cookie ->
  let '(s', st') :=
    handleCookiePermissionsUpdate now s st cookie pd allowed act true tabs reads in
  shouldBlockCookie st' cookie = isBlocking act allowed
  /\ (exists e',
       map_get (cookieKey cookie) (cookieHistory s') = Some e'
       /\ map_get (cookieKey cookie) (storedHistory s') = Some e'
       /\ status e' = (if isBlocking act allowed then blocked else active)
       /\ blockedAt e' = (if isBlocking act allowed then Some now else blockedAt e)
       /\ userAction e' = Some act /\ h_allowedDataTypes e' = Some allowed
       /\ potentialData e' = potentialData e /\ riskScore e' = riskScore e
       /\ firstSeen e' = firstSeen e /\ lastSeen e' = lastSeen e)
  /\ (forall k, k <> cookieKey cookie ->
      map_get k (storedHistory s') = map_get k (cookieHistory s)
      /\ (map_get k (cookieHistory s') = map_get k (cookieHistory s)
          \/ exists e0, map_get k (cookieHistory s) = Some e0
              /\ map_get k (cookieHistory s') = Some (set_status blocked e0)
              /\ blockedByPermission st' e0 = true)).
Proof.
  intros He Hk. unfold handleCookiePermissionsUpdate. cbn [negb]. rewrite He.
  set (st' := permissionsUpdateWrite now st cookie pd allowed act).
  set (h1 := permissionsUpdateHistory now (cookieHistory s) cookie allowed act).
  set (s1 := saveCookieHistory (setHistory h1 s)).
  destruct (updateActiveTabStats_ledger now s1 st' tabs reads) as [f [Hf [Hh Hs]]].
  rewrite Hh, Hs. cbn [cookieHistory storedHistory s1 saveCookieHistory setHistory].
  set (e1 := {| h_cookie := h_cookie e; potentialData := potentialData e;
                riskScore := riskScore e; firstSeen := firstSeen e;
                lastSeen := lastSeen e;
                status := if isBlocking act allowed then blocked else active;
                blockedAt := if isBlocking act allowed then Some now else blockedAt e;
                removedAt := removedAt e; autoBlocked := autoBlocked e;
                userAction := Some act; h_allowedDataTypes := Some allowed |}).
  assert (Eh1 : h1 = map_set (cookieKey cookie) e1 (cookieHistory s))
    by (unfold h1, permissionsUpdateHistory; rewrite He; reflexivity).
  assert (Hperm : getPermission (permissionKey (h_cookie e)) st'
                  = Some {| allowedDataTypes := allowed; action := act;
                            timestamp := now; cookieName := name cookie;
                            cookieDomain := domain cookie; p_autoBlocked := None;
                            p_blocked := isBlocking act allowed;
                            p_potentialData := pd |}).
  { unfold permissionKey. rewrite Hk. unfold getPermission, st', permissionsUpdateWrite.
    unfold permissionKey. rewrite map_get_set_same. reflexivity. }
  assert (Hfe1 : f e1 = e1).
  { destruct (Hf e1) as [R|[R Rb]]; [exact R|]. rewrite R.
    unfold blockedByPermission in Rb. cbn [h_cookie e1] in Rb. rewrite Hperm in Rb.
    cbn [p_blocked] in Rb. unfold e1. rewrite Rb. reflexivity. }
  split; [apply (proj1 (shouldBlockCookie_write_cases now st cookie cookie pd allowed act))|].
  split.
  - exists e1. rewrite map_get_map_values, Eh1, map_get_set_same. cbn [option_map].
    rewrite Hfe1. split; [reflexivity|]. split; [reflexivity|].
    repeat split; reflexivity.
  - intros k Hk'. rewrite map_get_map_values, Eh1, map_get_set_other by exact Hk'.
    split; [reflexivity|].
    destruct (map_get k (cookieHistory s)) as [e0|]; cbn [option_map]; [|left; reflexivity].
    destruct (Hf e0) as [R|[R Rb]]; [left; rewrite R; reflexivity|].
    right. exists e0. rewrite R. split; [reflexivity | split; [reflexivity | exact Rb]].
Qed.

Lemma handleCookiePermissionsUpdate_history_witness :
  exists e',
    map_get "a_x.com"
      (cookieHistory (fst (handleCookiePermissionsUpdate 9
         (mkBgState [("a_x.com", mkEntry (mkCookie "a" "x.com" "" "/" true false "" None)
                                 [] 1 2 3 active None None None None None);
                     ("b_x.com", mkEntry (mkCookie "b" "x.com" "" "/" true false "" None)
                                 [] 1 2 3 active None None None None None)]
                    [] (mkStats 0 0 0 0) "")
         [("cookie_b_x.com",
           SPermission (mkPermission [] "block" 0 "b" "x.com" None true []))]
         (mkCookie "a" "x.com" "" "/" true false "" None) [] [] "allow" true
         [mkTab (Some "https://x.com/")] (Some ("x.com", [(mkCookie "a" "x.com" "" "/" true false "" None)])))))
    = Some e' /\ status e' = active.
Proof.
  pose proof (handleCookiePermissionsUpdate_history 9%Z
    (mkBgState [("a_x.com", mkEntry (mkCookie "a" "x.com" "" "/" true false "" None)
                                 [] 1 2 3 active None None None None None);
                ("b_x.com", mkEntry (mkCookie "b" "x.com" "" "/" true false "" None)
                                 [] 1 2 3 active None None None None None)]
               [] (mkStats 0 0 0 0) "")
    [("cookie_b_x.com", SPermission (mkPermission [] "block" 0 "b" "x.com" None true []))]
    (mkCookie "a" "x.com" "" "/" true false "" None) [] [] "allow" [mkTab (Some "https://x.com/")] (Some ("x.com", [(mkCookie "a" "x.com" "" "/" true false "" None)]))
    (mkEntry (mkCookie "a" "x.com" "" "/" true false "" None)
                                 [] 1 2 3 active None None None None None) eq_refl eq_refl) as H.
  destruct (handleCookiePermissionsUpdate 9
    (mkBgState [("a_x.com", mkEntry (mkCookie "a" "x.com" "" "/" true false "" None)
                                 [] 1 2 3 active None None None None None);
                ("b_x.com", mkEntry (mkCookie "b" "x.com" "" "/" true false "" None)
                                 [] 1 2 3 active None None None None None)]
               [] (mkStats 0 0 0 0) "")
    [("cookie_b_x.com", SPermission (mkPermission [] "block" 0 "b" "x.com" None true []))]
    (mkCookie "a" "x.com" "" "/" true false "" None) [] [] "allow" true [mkTab (Some "https://x.com/")] (Some ("x.com", [(mkCookie "a" "x.com" "" "/" true false "" None)])))
    as [s' st'].
  destruct H as [_ [[e' [H1 [_ [H3 _]]]] _]]. exists e'. split; [exact H1 | exact H3].
Defined.

(** [handleCookiePermissionsUpdate] for a cookie without a history
    entry: after a successful permission write the ledger still has no
    entry for it and its persisted copy is not written (the stats update
    only changes statuses in memory); when the awaited write is rejected,
    neither the background state nor the store changes. *)
Theorem handleCookiePermissionsUpdate_no_entry (now : Z) (s : BgState) (st : SyncStore)
    (cookie : Cookie) (pd allowed : list string) (act : string) (tabs : list Tab)
    (reads : option (string * list Cookie)) :
  (map_get (cookieKey cookie) (cookieHistory s) = None ->
   let '(s', st') :=
     handleCookiePermissionsUpdate now s st cookie pd allowed act true tabs reads in
   map_get (cookieKey cookie) (cookieHistory s') = None
   /\ storedHistory s' = storedHistory s
   /\ st' = permissionsUpdateWrite now st cookie pd allowed act)
  /\ handleCookiePermissionsUpdate now s st cookie pd allowed act false tabs reads = (s, st).
Proof.
  split; [|reflexivity].
  intros He. unfold handleCookiePermissionsUpdate. cbn [negb]. rewrite He.
  destruct (updateActiveTabStats_ledger now s (permissionsUpdateWrite now st cookie pd allowed act)
              tabs reads) as [f [_ [Hh Hs]]].
  rewrite Hh, Hs, map_get_map_values, He. repeat split.
Qed.

Lemma handleCookiePermissionsUpdate_no_entry_witness :
  map_get "a_x.com"
    (cookieHistory (fst (handleCookiePermissionsUpdate 9
       (mkBgState [("b_x.com", mkEntry (mkCookie "b" "x.com" "" "/" true false "" None)
                                 [] 1 2 3 active None None None None None)]
                  [] (mkStats 0 0 0 0) "")
       [] (mkCookie "a" "x.com" "" "/" true false "" None) [] [] "block" true [mkTab (Some "https://x.com/")] (Some ("x.com", [])))))
  = None.
Proof.
  pose proof (proj1 (handleCookiePermissionsUpdate_no_entry 9%Z
    (mkBgState [("b_x.com", mkEntry (mkCookie "b" "x.com" "" "/" true false "" None)
                                 [] 1 2 3 active None None None None None)]
               [] (mkStats 0 0 0 0) "")
    [] (mkCookie "a" "x.com" "" "/" true false "" None) [] [] "block" [mkTab (Some "https://x.com/")] (Some ("x.com", []))) eq_refl) as H.
  destruct (handleCookiePermissionsUpdate 9
    (mkBgState [("b_x.com", mkEntry (mkCookie "b" "x.com" "" "/" true false "" None)
                                 [] 1 2 3 active None None None None None)]
               [] (mkStats 0 0 0 0) "")
    [] (mkCookie "a" "x.com" "" "/" true false "" None) [] [] "block" true [mkTab (Some "https://x.com/")] (Some ("x.com", [])))
    as [s' st'].
  exact (proj1 H).
Defined.

(** A popup action ([handleCookieAction] of popup.js) followed by the
    background's permission write leaves the cookie blocked exactly for
    ['block'], or for ['custom'] with no box checked; ['allow'] never
    blocks, even for a cookie with no detected data. *)
Theorem handleCookieAction_blocks (now : Z) (st : SyncStore) (cookie : Cookie)
    (cookiePd checked : list string) (act : string) :
  shouldBlockCookie
    (permissionsUpdateWrite now st cookie cookiePd
       (dataTypesToAllow cookiePd act checked) act) cookie = true
  <-> act = "block" \/ (act = "custom" /\ checked = []).
Proof.
  rewrite (proj1 (shouldBlockCookie_write_cases now st cookie cookie cookiePd
                    (dataTypesToAllow cookiePd act checked) act)).
  unfold isBlocking, dataTypesToAllow.
  destruct (String.eqb_spec act "allow") as [->|Ha]; simpl.
  { split; [discriminate|]. intros [H|[H _]]; discriminate. }
  destruct (String.eqb_spec act "block") as [->|Hb]; simpl.
  { split; auto. }
  destruct (String.eqb_spec act "custom") as [->|Hc]; simpl.
  - destruct checked as [|x checked]; simpl.
    + split; [intros _; right; split; reflexivity | reflexivity].
    + split; [discriminate|]. intros [H|[_ H]]; discriminate.
  - split; [discriminate|]. intros [H|[H _]]; contradiction.
Qed.

(* ================================================================= *)
(** ** Further properties: the cookie listener and the scan             *)
(* ================================================================= *)

Lemma onCookieSet_spec (now : Z) (s : BgState) (st : SyncStore) (cookie : Cookie) :
  let s' := onCookieSet now s st cookie in
  exists e,
    map_get (cookieKey cookie) (cookieHistory s') = Some e
    /\ h_cookie e = cookie
    /\ status e = (if shouldBlockCookie st cookie then blocked else active)
    /\ blockedAt e = (if shouldBlockCookie st cookie then Some now else None)
    /\ firstSeen e = match map_get (cookieKey cookie) (cookieHistory s) with
                     | Some e0 => firstSeen e0 | None => now end
    /\ lastSeen e = now
    /\ storedHistory s' = cookieHistory s'
    /\ removedAt e = None
    /\ (forall k, k <> cookieKey cookie ->
        map_get k (cookieHistory s') = map_get k (cookieHistory s)).
Proof.
  intros s'. subst s'. unfold onCookieSet. simpl.
  destruct (shouldBlockCookie st cookie).
  - unfold recordSighting. rewrite map_get_set_same. simpl.
    eexists. split; [apply map_get_set_same|].
    do 7 (split; [reflexivity|]).
    intros k Hk. rewrite !map_get_set_other by exact Hk. reflexivity.
  - unfold recordSighting. simpl.
    eexists. split; [apply map_get_set_same|].
    do 7 (split; [reflexivity|]).
    intros k Hk. rewrite map_get_set_other by exact Hk. reflexivity.
Qed.

(** The set branch of [cookies.onChanged]: afterwards the cookie has an
    entry holding the cookie, stamped [lastSeen = now], with the
    [firstSeen] of an earlier entry (or [now]); its status is [blocked],
    with [blockedAt = now], exactly when the stored permission blocks it,
    and [active] otherwise; the ledger is persisted and no other key
    changes. *)
Theorem onCookieSet_entry (now : Z) (s : BgState) (st : SyncStore) (cookie : Cookie) :
  let s' := onCookieSet now s st cookie in
  exists e,
    map_get (cookieKey cookie) (cookieHistory s') = Some e
    /\ h_cookie e = cookie
    /\ status e = (if shouldBlockCookie st cookie then blocked else active)
    /\ blockedAt e = (if shouldBlockCookie st cookie then Some now else None)
    /\ firstSeen e = match map_get (cookieKey cookie) (cookieHistory s) with
                     | Some e0 => firstSeen e0 | None => now end
    /\ lastSeen e = now
    /\ storedHistory s' = cookieHistory s'
    /\ (forall k, k <> cookieKey cookie ->
        map_get k (cookieHistory s') = map_get k (cookieHistory s)).
Proof.
  destruct (onCookieSet_spec now s st cookie) as [e [H1 [H2 [H3 [H4 [H5 [H6 [H7 [_ H9]]]]]]]]].
  exists e. repeat (split; [assumption|]). exact H9.
Qed.

Lemma onCookieSet_entry_witness :
  exists e,
    map_get "a_x.com"
      (cookieHistory (onCookieSet 5 (mkBgState [] [] (mkStats 0 0 0 0) "x.com")
         (autoBlockWrite 1 [] (mkCookie "a" "x.com" "v" "/" true false "" None) [])
         (mkCookie "a" "x.com" "v" "/" true false "" None)))
    = Some e /\ status e = blocked /\ blockedAt e = Some 5%Z.
Proof.
  destruct (onCookieSet_entry 5%Z (mkBgState [] [] (mkStats 0 0 0 0) "x.com")
              (autoBlockWrite 1 [] (mkCookie "a" "x.com" "v" "/" true false "" None) [])
              (mkCookie "a" "x.com" "v" "/" true false "" None))
    as [e [H1 [_ [H3 [H4 _]]]]].
  exists e. split; [exact H1|]. split; [exact H3 | exact H4].
Defined.

Lemma autoBlockWrite_keeps_blocking (now : Z) (st : SyncStore) (c x : Cookie)
    (pd : list string) :
  shouldBlockCookie st x = true -> shouldBlockCookie (autoBlockWrite now st c pd) x = true.
Proof.
  intros H. destruct (String.eqb_spec (permissionKey x) (permissionKey c)) as [E|E].
  - unfold shouldBlockCookie, autoBlockWrite. rewrite E, map_get_set_same. reflexivity.
  - destruct (proj2 (proj2 (proj2 (shouldBlockCookie_write_cases now st c x pd [] "block")))
               E) as [_ [R _]].
    rewrite R. exact H.
Qed.

Lemma shouldBlockCookie_same_key (st : SyncStore) (c c' : Cookie) :
  cookieKey c' = cookieKey c -> shouldBlockCookie st c' = shouldBlockCookie st c.
Proof. intros E. unfold shouldBlockCookie, permissionKey. rewrite E. reflexivity. Qed.

Lemma scanStep_snd (a : string) (now : Z) (ab : bool) (h : Ledger) (st : SyncStore)
    (c : Cookie) :
  snd (scanStep a now ab (h, st) c) = st
  \/ snd (scanStep a now ab (h, st) c) = autoBlockWrite now st c (detectPotentialData c).
Proof.
  unfold scanStep. destruct ab; [|left; reflexivity].
  destruct (5 <=? _)%Z; [right | left]; reflexivity.
Qed.

Lemma scanStep_other (a : string) (now : Z) (ab : bool) (h : Ledger) (st : SyncStore)
    (c : Cookie) (k : string) :
  k <> cookieKey c -> map_get k (fst (scanStep a now ab (h, st) c)) = map_get k h.
Proof.
  intros Hk. unfold scanStep, recordSighting.
  destruct ab; [destruct (5 <=? _)%Z|]; simpl;
  rewrite ?map_get_set_same; rewrite ?map_get_set_other by exact Hk; reflexivity.
Qed.

Lemma scanStep_self (a : string) (now : Z) (ab : bool) (h : Ledger) (st : SyncStore)
    (c : Cookie) :
  scannedOk ab (scanStep a now ab (h, st) c) c.
Proof.
  unfold scannedOk, scanStep, recordSighting.
  destruct ab; [destruct (5 <=? _)%Z eqn:E5|]; simpl.
  - rewrite map_get_set_same. simpl. eexists. split; [apply map_get_set_same|].
    right. simpl. repeat split; try reflexivity.
    + apply Z.leb_le. exact E5.
    + apply (proj1 (proj2 (shouldBlockCookie_write_cases now st c c
                             (detectPotentialData c) [] "block"))).
  - eexists. split; [apply map_get_set_same|]. left. reflexivity.
  - eexists. split; [apply map_get_set_same|]. left. reflexivity.
Qed.

Lemma scan_fold_inv (a : string) (now : Z) (ab : bool) (cs ps : list Cookie)
    (acc : Ledger * SyncStore) :
  (forall c, In c ps -> scannedOk ab acc c) ->
  forall c, In c (ps ++ cs)%list -> scannedOk ab (fold_left (scanStep a now ab) cs acc) c.
Proof.
  revert ps acc. induction cs as [|c cs IH]; intros ps [h st] Hinv; cbn [fold_left].
  - rewrite app_nil_r. exact Hinv.
  - replace (ps ++ c :: cs)%list with ((ps ++ [c]) ++ cs)%list
      by (rewrite <- app_assoc; reflexivity).
    apply IH. intros c' Hc'. apply in_app_iff in Hc' as [Hc'|[<-|[]]].
    + destruct (String.eqb_spec (cookieKey c') (cookieKey c)) as [E|E].
      * destruct (scanStep_self a now ab h st c) as [e [He Hs]].
        exists e. rewrite E. split; [exact He|].
        destruct Hs as [Hs|[H1 [H2 [H3 [H4 H5]]]]]; [left; exact Hs|].
        right. repeat split; try assumption.
        rewrite (shouldBlockCookie_same_key _ c c' E). exact H5.
      * destruct (Hinv c' Hc') as [e [He Hs]]. simpl in He, Hs.
        unfold scannedOk. exists e.
        split; [rewrite (scanStep_other a now ab h st c (cookieKey c') E); exact He|].
        destruct Hs as [Hs|[H1 [H2 [H3 [H4 H5]]]]]; [left; exact Hs|].
        right. repeat split; try assumption.
        destruct (scanStep_snd a now ab h st c) as [R|R]; rewrite R;
          [exact H5 | apply autoBlockWrite_keeps_blocking; exact H5].
    + apply scanStep_self.
Qed.

Lemma scan_fold_store (a : string) (now : Z) (ab : bool) (cs : list Cookie)
    (acc : Ledger * SyncStore) :
  (forall x, shouldBlockCookie (snd acc) x = true ->
        shouldBlockCookie (snd (fold_left (scanStep a now ab) cs acc)) x = true)
  /\ (storeConsistent (snd acc) = true ->
      storeConsistent (snd (fold_left (scanStep a now ab) cs acc)) = true)
  /\ (ab = false -> snd (fold_left (scanStep a now ab) cs acc) = snd acc).
Proof.
  revert acc. induction cs as [|c cs IH]; intros [h st]; cbn [fold_left]; [auto|].
  destruct (IH (scanStep a now ab (h, st) c)) as [IH1 [IH2 IH3]].
  split; [|split].
  - intros x Hx. apply IH1.
    destruct (scanStep_snd a now ab h st c) as [R|R]; rewrite R;
      [exact Hx | apply autoBlockWrite_keeps_blocking; exact Hx].
  - intros Hc. apply IH2.
    destruct (scanStep_snd a now ab h st c) as [R|R]; rewrite R;
      [exact Hc | apply storeConsistent_set; [reflexivity | exact Hc]].
  - intros Hab. rewrite (IH3 Hab). subst ab. reflexivity.
Qed.

Lemma scanLoop_complete (a : string) (now : Z) (ab : bool) (writeOk : nat -> bool)
    (cs : list Cookie) :
  forall i acc,
    (forall j, (i <= j < i + List.length cs)%nat -> ab = false \/ writeOk j = true) ->
    scanLoop a now ab writeOk i acc cs
    = (fst (fold_left (scanStep a now ab) cs acc),
       snd (fold_left (scanStep a now ab) cs acc), true).
Proof.
  induction cs as [|c cs IH]; intros i acc Hw; [reflexivity|].
  cbn [scanLoop fold_left].
  replace (ab && (5 <=? calculateRiskScore a now c (Some (detectPotentialData c)))%Z
           && negb (writeOk i)) with false.
  - apply IH. intros j Hj. apply Hw. cbn [List.length]. lia.
  - destruct (Hw i) as [R|R]; [cbn [List.length]; lia| |].
    + rewrite R. reflexivity.
    + rewrite R, andb_false_r. reflexivity.
Qed.

Lemma scanLoop_store (a : string) (now : Z) (ab : bool) (writeOk : nat -> bool)
    (cs : list Cookie) :
  forall i acc,
    let st' := snd (fst (scanLoop a now ab writeOk i acc cs)) in
    (forall x, shouldBlockCookie (snd acc) x = true -> shouldBlockCookie st' x = true)
    /\ (storeConsistent (snd acc) = true -> storeConsistent st' = true)
    /\ (ab = false -> st' = snd acc).
Proof.
  induction cs as [|c cs IH]; intros i [h st] st'; subst st'; cbn [scanLoop].
  - cbn [fst snd]. auto.
  - destruct (_ && _ && _); [cbn [fst snd]; auto|].
    destruct (IH (S i) (scanStep a now ab (h, st) c)) as [IH1 [IH2 IH3]].
    split; [|split].
    + intros x Hx. apply IH1.
      destruct (scanStep_snd a now ab h st c) as [R|R]; rewrite R;
        [exact Hx | apply autoBlockWrite_keeps_blocking; exact Hx].
    + intros Hc. apply IH2.
      destruct (scanStep_snd a now ab h st c) as [R|R]; rewrite R;
        [exact Hc | apply storeConsistent_set; [reflexivity | exact Hc]].
    + intros Hab. rewrite (IH3 Hab). subst ab. reflexivity.
Qed.

(** [scanExistingCookies] once the cookies are read. Whatever the
    awaited writes do, the scan never lifts a blocking permission, keeps
    every stored [blocked] flag consistent and writes nothing to the
    storage when auto-blocking is off. When auto-blocking is off or every
    auto-block write succeeds, the loop completes: every scanned cookie
    ends with a history entry that is active or (auto-blocking on)
    blocked by the scan with [autoBlocked], a score of at least 5 and a
    permission record that blocks it, and the ledger is persisted. *)
Theorem scanExistingCookies_result (now : Z) (s : BgState) (st : SyncStore)
    (cookies : list Cookie) (writeOk : nat -> bool) :
  let '(s', st') := scanExistingCookies now s st (Some cookies) writeOk in
  (forall x, shouldBlockCookie st x = true -> shouldBlockCookie st' x = true)
  /\ (storeConsistent st = true -> storeConsistent st' = true)
  /\ (autoBlockHighRisk st = false -> st' = st)
  /\ ((autoBlockHighRisk st = false
       \/ forall i, (i < List.length cookies)%nat -> writeOk i = true) ->
      storedHistory s' = cookieHistory s'
      /\ forall c, In c cookies ->
         exists e, map_get (cookieKey c) (cookieHistory s') = Some e
           /\ (status e = active
               \/ (autoBlockHighRisk st = true /\ status e = blocked
                   /\ autoBlocked e = Some true /\ (5 <= riskScore e)%Z
                   /\ shouldBlockCookie st' c = true))).
Proof.
  unfold scanExistingCookies.
  set (ab := autoBlockHighRisk st).
  pose proof (scanLoop_store (activeTabDomain s) now ab writeOk cookies 0%nat
                (cookieHistory s, st)) as [H1 [H2 H3]].
  pose proof (scanLoop_complete (activeTabDomain s) now ab writeOk cookies 0%nat
                (cookieHistory s, st)) as Hc.
  pose proof (scan_fold_inv (activeTabDomain s) now ab cookies []
                (cookieHistory s, st) ltac:(intros c [])) as Hinv.
  destruct (scanLoop (activeTabDomain s) now ab writeOk 0 (cookieHistory s, st) cookies)
    as [[h' st'] done] eqn:E.
  cbn [fst snd] in H1, H2, H3.
  assert (Main : (ab = false \/ forall i, (i < List.length cookies)%nat -> writeOk i = true) ->
                 done = true /\ h' = fst (fold_left (scanStep (activeTabDomain s) now ab) cookies
                                                   (cookieHistory s, st))
                 /\ st' = snd (fold_left (scanStep (activeTabDomain s) now ab) cookies
                                        (cookieHistory s, st))).
  { intros Hw.
    assert (Hw' : forall j, (0 <= j < 0 + List.length cookies)%nat ->
                            ab = false \/ writeOk j = true).
    { intros j Hj. destruct Hw as [Hw|Hw]; [left; exact Hw | right; apply Hw; lia]. }
    injection (Hc Hw') as E1 E2 E3. rewrite E1, E2, E3. repeat split. }
  destruct done; cbv beta iota zeta.
  - split; [exact H1|]. split; [exact H2|]. split; [exact H3|].
    intros Hw. destruct (Main Hw) as [_ [Eh Est]].
    cbn [cookieHistory storedHistory saveCookieHistory setHistory]. split; [reflexivity|].
    intros c Hin. destruct (Hinv c Hin) as [e [He Hs]]. exists e. rewrite Eh, Est.
    split; [exact He | exact Hs].
  - split; [exact H1|]. split; [exact H2|]. split; [exact H3|].
    intros Hw. destruct (Main Hw) as [Hd _]. discriminate Hd.
Qed.

Lemma scanExistingCookies_result_witness :
  let '(s', st') :=
    scanExistingCookies 0 (mkBgState [] [] (mkStats 0 0 0 0) "shop.com")
      [("autoBlockHighRisk", SSetting true)]
      (Some [(mkCookie "_ga_track" "ads.tracker.net" "uid=1;email" "/" false false "lax" (Some 100000000000%Z)); (mkCookie "theme" "shop.com" "dark" "/" true false "lax" None)]) (fun _ => true) in
  storedHistory s' = cookieHistory s'.
Proof.
  pose proof (scanExistingCookies_result 0%Z (mkBgState [] [] (mkStats 0 0 0 0) "shop.com")
                [("autoBlockHighRisk", SSetting true)]
                [(mkCookie "_ga_track" "ads.tracker.net" "uid=1;email" "/" false false "lax" (Some 100000000000%Z)); (mkCookie "theme" "shop.com" "dark" "/" true false "lax" None)] (fun _ => true)) as H.
  destruct (scanExistingCookies 0 (mkBgState [] [] (mkStats 0 0 0 0) "shop.com")
              [("autoBlockHighRisk", SSetting true)]
              (Some [(mkCookie "_ga_track" "ads.tracker.net" "uid=1;email" "/" false false "lax" (Some 100000000000%Z)); (mkCookie "theme" "shop.com" "dark" "/" true false "lax" None)]) (fun _ => true)) as [s' st'].
  destruct H as [_ [_ [_ H4]]].
  exact (proj1 (H4 (or_intror (fun _ _ => eq_refl)))).
Defined.

(** A rejected auto-block write stops [scanExistingCookies]: when the
    first cookie scores at least 5 with auto-blocking on and its
    [chrome.cookies.remove] or [chrome.storage.sync.set] rejects, the
    store is not written and the ledger is not persisted, while in memory
    the cookie's entry is already [blocked] with [autoBlocked]; the
    remaining cookies are not scanned (every other key keeps its
    entry). *)
Theorem scanExistingCookies_write_failure (now : Z) (s : BgState) (st : SyncStore)
    (c : Cookie) (rest : list Cookie) (writeOk : nat -> bool) :
  autoBlockHighRisk st = true ->
  (5 <= calculateRiskScore (activeTabDomain s) now c (Some (detectPotentialData c)))%Z ->
  writeOk 0%nat = false ->
  let '(s', st') := scanExistingCookies now s st (Some (c :: rest)) writeOk in
  st' = st
  /\ storedHistory s' = storedHistory s
  /\ (exists e, map_get (cookieKey c) (cookieHistory s') = Some e
       /\ status e = blocked /\ autoBlocked e = Some true)
  /\ (forall k, k <> cookieKey c -> map_get k (cookieHistory s') = map_get k (cookieHistory s)).
Proof.
  intros Hab H5 Hw. unfold scanExistingCookies. rewrite Hab. cbn [scanLoop].
  apply Z.leb_le in H5. rewrite H5, Hw. cbn [andb negb fst snd].
  cbn [cookieHistory storedHistory setHistory].
  split; [reflexivity|]. split; [reflexivity|]. split.
  - unfold scanStep. cbv beta iota zeta. rewrite H5. unfold recordSighting.
    rewrite map_get_set_same. cbn [fst]. eexists. split; [apply map_get_set_same|]. repeat split.
  - intros k Hk. apply (scanStep_other _ _ _ _ _ _ _ Hk).
Qed.

Lemma scanExistingCookies_write_failure_witness :
  let '(s', st') :=
    scanExistingCookies 0 (mkBgState [] [] (mkStats 0 0 0 0) "shop.com")
      [("autoBlockHighRisk", SSetting true)]
      (Some [(mkCookie "_ga_track" "ads.tracker.net" "uid=1;email" "/" false false "lax" (Some 100000000000%Z)); (mkCookie "theme" "shop.com" "dark" "/" true false "lax" None)]) (fun _ => false) in
  storedHistory s' = [] /\ map_get "theme_shop.com" (cookieHistory s') = None.
Proof.
  pose proof (scanExistingCookies_write_failure 0%Z (mkBgState [] [] (mkStats 0 0 0 0) "shop.com")
                [("autoBlockHighRisk", SSetting true)] (mkCookie "_ga_track" "ads.tracker.net" "uid=1;email" "/" false false "lax" (Some 100000000000%Z)) [(mkCookie "theme" "shop.com" "dark" "/" true false "lax" None)] (fun _ => false)
                eq_refl ltac:(vm_compute; discriminate) eq_refl) as H.
  destruct (scanExistingCookies 0 (mkBgState [] [] (mkStats 0 0 0 0) "shop.com")
              [("autoBlockHighRisk", SSetting true)]
              (Some [(mkCookie "_ga_track" "ads.tracker.net" "uid=1;email" "/" false false "lax" (Some 100000000000%Z)); (mkCookie "theme" "shop.com" "dark" "/" true false "lax" None)]) (fun _ => false)) as [s' st'].
  destruct H as [_ [H2 [_ H4]]].
  split; [exact H2 | rewrite (H4 "theme_shop.com" ltac:(discriminate)); reflexivity].
Defined.

(* ================================================================= *)
(** ** Further properties: explanations                                *)
(* ================================================================= *)

(** [getAIExplanation] never changes the cache (the API call always
    fails); when nothing is cached the answer is one of the five fallback
    texts the code selects (session, advertising, analytics, preference,
    default): the [tracking] text of the table is never returned. *)
Theorem getAIExplanation_failure (cache : JsMap string) (cookie : Cookie)
    (pd : option (list string)) :
  snd (getAIExplanation cache cookie pd) = cache
  /\ (map_get (cookieKey cookie) cache = None ->
      In (fst (getAIExplanation cache cookie pd))
        [fallback_session; fallback_advertising; fallback_analytics;
         fallback_preference; fallback_default]
      /\ fst (getAIExplanation cache cookie pd) <> fallback_tracking).
Proof.
  unfold getAIExplanation. destruct (map_get (cookieKey cookie) cache) eqn:E.
  - split; [reflexivity | discriminate].
  - split; [reflexivity|]. intros _. simpl. unfold fallbackExplanation.
    destruct (_ || _); [split; [left; reflexivity | discriminate]|].
    destruct (_ || _); [split; [right; left; reflexivity | discriminate]|].
    destruct (_ || _); [split; [right; right; left; reflexivity | discriminate]|].
    destruct (_ || _); [split; [do 3 right; left; reflexivity | discriminate]|].
    split; [do 4 right; left; reflexivity | discriminate].
Qed.

Lemma getAIExplanation_failure_witness :
  fst (getAIExplanation [] (mkCookie "_ga" "x.com" "" "/" true false "" None)
         (Some ["browsing_behavior"])) <> fallback_tracking.
Proof.
  exact (proj2 (proj2 (getAIExplanation_failure []
                         (mkCookie "_ga" "x.com" "" "/" true false "" None)
                         (Some ["browsing_behavior"])) eq_refl)).
Defined.

(* ================================================================= *)
(** ** Further properties: the content script                          *)
(* ================================================================= *)

(** [suspiciousCookies] only grows, at its end; it never holds two
    entries for one [(name, domain)]; the reported cookie is listed
    afterwards, and a cookie already listed changes nothing (no new
    entry, no warning). *)
Theorem handleSuspiciousCookie_unique (ts : string) (st : ContentState) (cookie : Cookie)
    (riskScore : Z) :
  NoDup (map caPair (suspiciousCookies st)) ->
  let st' := handleSuspiciousCookie ts st cookie riskScore in
  NoDup (map caPair (suspiciousCookies st'))
  /\ (exists l, suspiciousCookies st' = (suspiciousCookies st ++ l)%list)
  /\ In (name cookie, domain cookie) (map caPair (suspiciousCookies st'))
  /\ (In (name cookie, domain cookie) (map caPair (suspiciousCookies st)) -> st' = st).
Proof.
  intros Hnd st'. subst st'. unfold handleSuspiciousCookie.
  destruct (existsb _ (suspiciousCookies st)) eqn:Ex.
  - apply existsb_exists in Ex as [a [Ha Hm]].
    apply andb_true_iff in Hm as [Hn Hd].
    apply String.eqb_eq in Hn, Hd.
    split; [exact Hnd|]. split; [exists []; rewrite app_nil_r; reflexivity|].
    split; [|intros _; reflexivity].
    apply in_map_iff. exists a. unfold caPair. rewrite Hn, Hd. split; [reflexivity | exact Ha].
  - assert (Hnot : ~ In (name cookie, domain cookie) (map caPair (suspiciousCookies st))).
    { intros Hin. apply in_map_iff in Hin as [a [Ha Hin]]. unfold caPair in Ha.
      inversion Ha.
      assert (existsb (fun c => String.eqb (name (ca_cookie c)) (name cookie)
                               && String.eqb (domain (ca_cookie c)) (domain cookie))
                (suspiciousCookies st) = true) as Ht.
      { apply existsb_exists. exists a. split; [exact Hin|].
        rewrite H0, H1, !String.eqb_refl. reflexivity. }
      rewrite Ht in Ex. discriminate. }
    set (a := mkContentAnalyzed cookie _ _ riskScore ts).
    assert (Hpost : forall st0 : ContentState,
               suspiciousCookies st0 = (suspiciousCookies st ++ [a])%list ->
               NoDup (map caPair (suspiciousCookies st0))
               /\ (exists l, suspiciousCookies st0 = (suspiciousCookies st ++ l)%list)
               /\ In (name cookie, domain cookie) (map caPair (suspiciousCookies st0))
               /\ (In (name cookie, domain cookie) (map caPair (suspiciousCookies st)) ->
                   st0 = st)).
    { intros st0 E. rewrite E, map_app. simpl.
      split; [|split; [exists [a]; reflexivity|split]].
      - apply NoDup_app; [exact Hnd | constructor; [intros []| constructor] |].
        intros x Hx [Hy|[]]. subst x. apply Hnot. exact Hx.
      - apply in_app_iff. right. left. reflexivity.
      - intros Hin. contradiction. }
    destruct (2 <=? riskScore)%Z.
    + apply Hpost. unfold showCookieWarning. simpl.
      destruct (notification st); reflexivity.
    + apply Hpost. reflexivity.
Qed.

Lemma handleSuspiciousCookie_unique_witness :
  NoDup (map caPair (suspiciousCookies
    (handleSuspiciousCookie "t" (mkContentState [] None)
       (mkCookie "uid" "x.com" "1" "/" true false "" None) 3))).
Proof.
  exact (proj1 (handleSuspiciousCookie_unique "t" (mkContentState [] None)
                  (mkCookie "uid" "x.com" "1" "/" true false "" None) 3%Z (NoDup_nil _))).
Defined.

(** The page shows at most one warning at a time: a shown notification is
    never replaced by a later report, and whatever notification is shown
    belongs to a listed cookie whose score is at least 2. *)
Theorem handleSuspiciousCookie_notification (ts : string) (st : ContentState)
    (cookie : Cookie) (riskScore : Z) :
  notificationListed st ->
  let st' := handleSuspiciousCookie ts st cookie riskScore in
  notificationListed st'
  /\ (notification st <> None -> notification st' = notification st).
Proof.
  intros Hok st'. subst st'. unfold handleSuspiciousCookie.
  destruct (existsb _ (suspiciousCookies st)); [split; [exact Hok | reflexivity]|].
  unfold notificationListed in *.
  destruct (2 <=? riskScore)%Z eqn:E2; unfold showCookieWarning; simpl;
    destruct (notification st) as [n|] eqn:En; simpl.
  - split; [|reflexivity]. destruct Hok as [Hin Hs].
    split; [apply in_app_iff; left; exact Hin | exact Hs].
  - split; [|intros H; contradiction].
    split; [apply in_app_iff; right; left; reflexivity | apply Z.leb_le; exact E2].
  - split; [|reflexivity]. destruct Hok as [Hin Hs].
    split; [apply in_app_iff; left; exact Hin | exact Hs].
  - split; [exact I | reflexivity].
Qed.

Lemma handleSuspiciousCookie_notification_witness :
  notificationListed (handleSuspiciousCookie "t" (mkContentState [] None)
                        (mkCookie "uid" "x.com" "1" "/" true false "" None) 3).
Proof.
  exact (proj1 (handleSuspiciousCookie_notification "t" (mkContentState [] None)
                  (mkCookie "uid" "x.com" "1" "/" true false "" None) 3%Z I)).
Defined.

(* ================================================================= *)
(** ** Further properties: the popup lists                             *)
(* ================================================================= *)

(** [allCookies] of popup.js: the live cookies come first, unchanged and
    unflagged; every added pseudo-cookie is flagged [blocked], has the
    value ['[BLOCKED]'] and the key of no live cookie; and every blocked
    permission under a [cookie_] key is represented by a live cookie or a
    pseudo-cookie of the same key. *)
Theorem combineCookies_shape (cookies : list Cookie) (allPermissions : SyncStore) :
  let allCookies := combineCookies cookies allPermissions in
  exists pseudo,
    allCookies = (map (fun c => mkPopupCookie c false None) cookies ++ pseudo)%list
    /\ (forall pc, In pc pseudo ->
        pc_blocked pc = true /\ value (pc_cookie pc) = "[BLOCKED]"
        /\ ~ In (cookieKey (pc_cookie pc)) (map cookieKey cookies))
    /\ (forall key p, In (key, SPermission p) allPermissions ->
        startsWith key "cookie_" = true -> p_blocked p = true ->
        In (permCookieKey p) (map (fun pc => cookieKey (pc_cookie pc)) allCookies)).
Proof.
  intros allCookies. subst allCookies. unfold combineCookies. eexists. split; [reflexivity|].
  split.
  - intros pc Hpc. apply in_flat_map in Hpc as [[key v] [_ Hpc]].
    destruct v as [p|b]; [|destruct Hpc].
    destruct (startsWith key "cookie_" && p_blocked p
              && negb (set_has (permCookieKey p) (map cookieKey cookies))) eqn:E;
      [|destruct Hpc].
    destruct Hpc as [<-|[]]. apply andb_true_iff in E as [_ E].
    apply negb_true_iff in E. simpl. split; [reflexivity|]. split; [reflexivity|].
    intros Hin. apply set_has_In in Hin.
    change (set_has (permCookieKey p) (map cookieKey cookies) = true) in Hin.
    rewrite Hin in E.
    discriminate.
  - intros key p Hin Hk Hb. rewrite map_app, map_map, in_app_iff. simpl.
    destruct (set_has (permCookieKey p) (map cookieKey cookies)) eqn:E.
    + left. apply set_has_In. exact E.
    + right. apply in_map_iff. exists (pseudoCookie p). split; [reflexivity|].
      apply in_flat_map. exists (key, SPermission p). split; [exact Hin|].
      rewrite Hk, Hb, E. left. reflexivity.
Qed.

Lemma combineCookies_shape_witness :
  In "a_x.com"
    (map (fun pc => cookieKey (pc_cookie pc))
       (combineCookies []
          [("cookie_a_x.com",
            SPermission (mkPermission [] "block" 0 "a" "x.com" None true []))])).
Proof.
  destruct (combineCookies_shape []
              [("cookie_a_x.com",
                SPermission (mkPermission [] "block" 0 "a" "x.com" None true []))])
    as [pseudo [_ [_ H]]].
  exact (H "cookie_a_x.com" (mkPermission [] "block" 0 "a" "x.com" None true [])
           (or_introl eq_refl) eq_refl eq_refl).
Defined.

(** The popup's [analyzeCookieData] shows every blocked cookie (a
    pseudo-cookie or a cookie whose stored permission blocks it) with a
    score of at least 5 and the level [high]. *)
Theorem analyzeCookieData_popup_blocked (now : Z) (currentTabUrl : option TabUrl)
    (stored : SyncStore) (pc : PopupCookie) :
  an_isBlocked (analyzeCookieData_popup now currentTabUrl stored pc) = true ->
  (5 <= an_riskScore (analyzeCookieData_popup now currentTabUrl stored pc))%Z
  /\ an_riskLevel (analyzeCookieData_popup now currentTabUrl stored pc) = high.
Proof.
  unfold analyzeCookieData_popup. simpl.
  destruct (pc_blocked pc || _); [|discriminate]. intros _.
  unfold riskLevelOfScore.
  match goal with |- (5 <= Z.max ?x 5)%Z /\ _ => set (r := x) end.
  split; [lia|]. destruct (5 <=? Z.max r 5)%Z eqn:E; [reflexivity|].
  apply Z.leb_gt in E. lia.
Qed.

Lemma analyzeCookieData_popup_blocked_witness :
  an_riskLevel (analyzeCookieData_popup 0 None []
                  (pseudoCookie (mkPermission [] "block" 0 "a" "x.com" None true []))) = high.
Proof.
  exact (proj2 (analyzeCookieData_popup_blocked 0%Z None []
                  (pseudoCookie (mkPermission [] "block" 0 "a" "x.com" None true []))
                  eq_refl)).
Defined.

(** The comparator of popup.js's sort is consistent (antisymmetric and
    transitive, as [Array.prototype.sort] requires) and puts every blocked
    cookie before every unblocked one. *)
Theorem compareAnalyzed_consistent (a b c : Analyzed) :
  compareAnalyzed a b = (- compareAnalyzed b a)%Z
  /\ ((compareAnalyzed a b <= 0)%Z -> (compareAnalyzed b c <= 0)%Z ->
      (compareAnalyzed a c <= 0)%Z)
  /\ (an_isBlocked a = true -> an_isBlocked b = false -> (compareAnalyzed a b < 0)%Z).
Proof.
  unfold compareAnalyzed.
  destruct (an_isBlocked a), (an_isBlocked b), (an_isBlocked c); simpl;
    repeat split; intros; try discriminate; lia.
Qed.

Lemma compareAnalyzed_consistent_witness :
  (compareAnalyzed (mkAnalyzed [] high 5 None true) (mkAnalyzed [] high 9 None false) < 0)%Z.
Proof.
  exact (proj2 (proj2 (compareAnalyzed_consistent (mkAnalyzed [] high 5 None true)
                         (mkAnalyzed [] high 9 None false) (mkAnalyzed [] high 9 None false)))
           eq_refl eq_refl).
Defined.

Lemma sortPriority_between (m : MergedCookie) :
  (1 <= sortPriority m <= 4)%Z.
Proof.
  unfold sortPriority.
  destruct (match m_permission m with Some p => p_blocked p | None => false end);
  destruct (m_status m); destruct (String.eqb (m_value m) "[BLOCKED/REMOVED]"); simpl; lia.
Qed.

(** The newer popup's priority is always between 1 and 4: its fallback
    value 0 is never used. *)
Theorem sortPriority_range (m : MergedCookie) :
  (1 <= sortPriority m <= 4)%Z.
Proof. apply sortPriority_between. Qed.

(** The newer popup's comparator is consistent (antisymmetric and
    transitive), and it puts a live cookie of the merged view whose
    permission does not block it before every history-only element. *)
Theorem compareMerged_consistent (a b c : MergedCookie) :
  compareMerged a b = (- compareMerged b a)%Z
  /\ ((compareMerged a b <= 0)%Z -> (compareMerged b c <= 0)%Z ->
      (compareMerged a c <= 0)%Z).
Proof.
  unfold compareMerged.
  destruct (Z.eqb_spec (sortPriority a) (sortPriority b));
  destruct (Z.eqb_spec (sortPriority b) (sortPriority a));
  destruct (Z.eqb_spec (sortPriority b) (sortPriority c));
  destruct (Z.eqb_spec (sortPriority a) (sortPriority c)); simpl;
    split; try lia; intros; lia.
Qed.

Theorem compareMerged_live_first (activeTab : string) (now : Z) (h : Ledger)
    (permissions : SyncStore) (cookie : Cookie) (e : HistoryEntry) :
  value cookie <> "[BLOCKED/REMOVED]" ->
  match getPermission (permissionKey cookie) permissions with
  | Some p => p_blocked p | None => false end = false ->
  (compareMerged (mergeLive activeTab now h permissions cookie)
     (mergeHistory permissions e) < 0)%Z.
Proof.
  intros Hv Hp.
  assert (H4 : sortPriority (mergeLive activeTab now h permissions cookie) = 4%Z).
  { unfold sortPriority, mergeLive. simpl.
    destruct (getPermission (permissionKey cookie) permissions) as [p|]; simpl in *.
    - rewrite Hp. simpl. apply String.eqb_neq in Hv. rewrite Hv. reflexivity.
    - apply String.eqb_neq in Hv. rewrite Hv. reflexivity. }
  assert (H3 : (sortPriority (mergeHistory permissions e) <= 3)%Z).
  { unfold sortPriority, mergeHistory. cbn [m_status m_value m_permission].
    rewrite String.eqb_refl. simpl negb. rewrite !andb_false_r.
    repeat match goal with |- context [if ?c then _ else _] => destruct c end; lia. }
  pose proof (sortPriority_between (mergeHistory permissions e)).
  unfold compareMerged. rewrite H4.
  destruct (Z.eqb_spec 4 (sortPriority (mergeHistory permissions e))); simpl; lia.
Qed.

Lemma compareMerged_consistent_witness :
  (compareMerged
     (mergeLive "" 0 [] [] (mkCookie "a" "x.com" "1" "/" true false "" None))
     (mergeHistory [] (mkEntry (mkCookie "b" "x.com" "" "/" true false "" None)
                         [] 7 0 0 removed None None None None None)) <= 0)%Z.
Proof.
  apply (proj2 (compareMerged_consistent
     (mergeLive "" 0 [] [] (mkCookie "a" "x.com" "1" "/" true false "" None))
     (mergeLive "" 0 [] [] (mkCookie "c" "x.com" "1" "/" true false "" None))
     (mergeHistory [] (mkEntry (mkCookie "b" "x.com" "" "/" true false "" None)
                         [] 7 0 0 removed None None None None None))));
    vm_compute; discriminate.
Defined.

Lemma compareMerged_live_first_witness :
  (compareMerged
     (mergeLive "" 0 [] [] (mkCookie "a" "x.com" "1" "/" true false "" None))
     (mergeHistory [] (mkEntry (mkCookie "b" "x.com" "" "/" true false "" None)
                         [] 7 0 0 blocked None None None None None)) < 0)%Z.
Proof.
  apply (compareMerged_live_first "" 0%Z [] []
           (mkCookie "a" "x.com" "1" "/" true false "" None)
           (mkEntry (mkCookie "b" "x.com" "" "/" true false "" None)
              [] 7 0 0 blocked None None None None None)); [discriminate | reflexivity].
Defined.

(* ================================================================= *)
(** ** Further properties: expiry texts and ephemeral cookies          *)
(* ================================================================= *)

Lemma div_range (d k lo hi : Z) :
  (0 < k)%Z -> (lo * k <= d < hi * k)%Z -> (lo <= d / k < hi)%Z.
Proof.
  intros Hk Hd. pose proof (Z.div_mod d k ltac:(lia)).
  pose proof (Z.mod_pos_bound d k Hk). nia.
Qed.

(** The expiry text of both popups: ['Session'] exactly for a missing or
    zero expiry, ['Expired'] for a date in the past, ['< 1 min'] under a
    minute ahead, and otherwise a whole number that is always within its
    unit's range: 1-59 minutes, 1-23 hours, 1-29 days, 1-12 months, at
    least 1 year. *)
Theorem expirationTextOf_ranges (now : Z) (exp : option Z) :
  match expirationTextOf now exp with
  | TextSession => exp = None \/ exp = Some 0%Z
  | TextExpired => exists e, exp = Some e /\ e <> 0%Z /\ (1000 * e < now)%Z
  | TextUnderMinute => exists e, exp = Some e /\ (now <= 1000 * e < now + 60000)%Z
  | TextMinutes n => (1 <= n <= 59)%Z
  | TextHours n => (1 <= n <= 23)%Z
  | TextDays n => (1 <= n <= 29)%Z
  | TextMonths n => (1 <= n <= 12)%Z
  | TextYears n => (1 <= n)%Z
  | TextBlocked | TextNotSet | TextRemoved => False
  end.
Proof.
  unfold expirationTextOf. destruct exp as [e|]; [|left; reflexivity].
  destruct (Z.eqb_spec e 0) as [->|He0]; [right; reflexivity|].
  destruct (Z.ltb_spec (1000 * e - now) 0); [exists e; repeat split; auto; lia|].
  destruct (Z.ltb_spec (1000 * e - now) 60000); [exists e; split; [reflexivity | lia]|].
  destruct (Z.ltb_spec (1000 * e - now) 3600000).
  { pose proof (div_range (1000 * e - now) 60000 1 60); lia. }
  destruct (Z.ltb_spec (1000 * e - now) 86400000).
  { pose proof (div_range (1000 * e - now) 3600000 1 24); lia. }
  destruct (Z.ltb_spec (1000 * e - now) 2592000000).
  { pose proof (div_range (1000 * e - now) 86400000 1 30); lia. }
  destruct (Z.ltb_spec (1000 * e - now) 31536000000).
  { pose proof (div_range (1000 * e - now) 2592000000 1 13); lia. }
  pose proof (Z.div_le_lower_bound (1000 * e - now) 31536000000 1); lia.
Qed.

(** The newer popup's expiry column for the merged list: a history-only
    element always reads ['N/A (Blocked)'] (blocking permission) or
    ['N/A (Not Set)'], never ['N/A (Removed)'] or a date, even for a
    removed entry; a live cookie whose value is not the history marker
    shows the expiry text of its own [expirationDate]. *)
Theorem getExpirationText_merged_cases (activeTab : string) (now : Z) (h : Ledger)
    (permissions : SyncStore) (cookie : Cookie) (e : HistoryEntry) :
  getExpirationText_merged now (mergeHistory permissions e)
  = (if match getPermission (permissionKey (h_cookie e)) permissions with
        | Some p => p_blocked p | None => false end
     then TextBlocked else TextNotSet)
  /\ (value cookie <> "[BLOCKED/REMOVED]" ->
      getExpirationText_merged now (mergeLive activeTab now h permissions cookie)
      = expirationTextOf now (expirationDate cookie)).
Proof.
  split.
  - unfold getExpirationText_merged, mergeHistory. cbn [m_permission m_value m_status].
    rewrite String.eqb_refl, andb_true_r.
    destruct (match _ with Some p => p_blocked p | None => false end); reflexivity.
  - intros Hv. apply String.eqb_neq in Hv.
    unfold getExpirationText_merged, mergeLive. cbn [m_permission m_value m_status].
    rewrite Hv, andb_false_r. simpl.
    destruct (getPermission (permissionKey cookie) permissions) as [p|];
      [destruct (p_blocked p)|]; reflexivity.
Qed.

Lemma getExpirationText_merged_cases_witness :
  getExpirationText_merged 0
    (mergeLive "" 0 [] [] (mkCookie "a" "x.com" "1" "/" true false "" (Some 90%Z)))
  = TextMinutes 1.
Proof.
  rewrite (proj2 (getExpirationText_merged_cases "" 0%Z [] []
                    (mkCookie "a" "x.com" "1" "/" true false "" (Some 90%Z))
                    (mkEntry (mkCookie "a" "x.com" "" "/" true false "" None)
                       [] 0 0 0 removed None None None None None)) ltac:(discriminate)).
  reflexivity.
Defined.

Lemma startsWith_refl (s : string) : startsWith s s = true.
Proof. induction s as [|c s IH]; simpl; [reflexivity | rewrite Ascii.eqb_refl; exact IH]. Qed.

(** [isEphemeralCookie] of the newer popup and its expiry column agree
    on the elements whose column shows a date, those whose value is not
    the history marker and whose status is not [removed]: such an
    element whose column reads ['Session'], ['Expired'], ['< 1 min'] or a
    number of minutes is ephemeral, and an ephemeral one has such a text
    or a name starting with one of ['ST-'], ['CONSISTENCY'], ['GPS'],
    ['YSC']. *)
Theorem isEphemeralCookie_expiry (now : Z) (m : MergedCookie) :
  m_value m <> "[BLOCKED/REMOVED]" ->
  m_status m <> removed ->
  let withinHour :=
    match getExpirationText_merged now m with
    | TextSession | TextExpired | TextUnderMinute | TextMinutes _ => true
    | _ => false
    end in
  (withinHour = true -> isEphemeralCookie now m = true)
  /\ (isEphemeralCookie now m = true ->
      withinHour = true
      \/ exists p, In p ["ST-"; "CONSISTENCY"; "GPS"; "YSC"]
                   /\ startsWith (m_name m) p = true).
Proof.
  intros Hv Hrm withinHour. subst withinHour.
  assert (Hcol : getExpirationText_merged now m = expirationTextOf now (m_expirationDate m)).
  { unfold getExpirationText_merged. apply String.eqb_neq in Hv. rewrite Hv, andb_false_r.
    cbn [negb andb]. destruct (m_status m); [reflexivity | reflexivity | contradiction]. }
  rewrite Hcol. unfold isEphemeralCookie, expirationTextOf.
  set (sl := existsb _ _).
  assert (Hsl : sl = true -> exists p, In p ["ST-"; "CONSISTENCY"; "GPS"; "YSC"]
                                       /\ startsWith (m_name m) p = true).
  { intros H. apply existsb_exists in H as [p [Hp Hs]]. exists p. split; [exact Hp|].
    apply orb_true_iff in Hs as [Hs|Hs]; [exact Hs|].
    apply String.eqb_eq in Hs. rewrite <- Hs. apply startsWith_refl. }
  destruct (m_expirationDate m) as [e|]; cbn [negb orb andb].
  2: { split; [intros _; rewrite orb_false_r, orb_true_r; reflexivity
              | intros _; left; reflexivity]. }
  destruct (Z.eqb_spec e 0); cbn [negb orb andb].
  { split; [intros _; rewrite orb_true_r; reflexivity | intros _; left; reflexivity]. }
  rewrite orb_false_r.
  destruct (Z.ltb_spec (1000 * e - now) 0);
  destruct (Z.ltb_spec (1000 * e - now) 60000);
  destruct (Z.ltb_spec (1000 * e - now) 3600000);
  destruct (Z.ltb_spec (1000 * e - now) 86400000);
  destruct (Z.ltb_spec (1000 * e - now) 2592000000);
  destruct (Z.ltb_spec (1000 * e - now) 31536000000);
  cbn [orb]; try lia;
  first
    [ split; [intros _; apply orb_true_r | intros _; left; reflexivity]
    | split; [intros Hf; discriminate Hf
             | intros Hx; right; apply Hsl; rewrite orb_false_r in Hx; exact Hx] ].
Qed.

Lemma isEphemeralCookie_expiry_witness :
  isEphemeralCookie 0
    (mergeLive "" 0 [] [] (mkCookie "a" "x.com" "1" "/" true false "" (Some 90%Z))) = true.
Proof.
  apply (proj1 (isEphemeralCookie_expiry 0%Z
    (mergeLive "" 0 [] [] (mkCookie "a" "x.com" "1" "/" true false "" (Some 90%Z)))
    ltac:(discriminate) ltac:(discriminate))).
  reflexivity.
Defined.

(** A cookie event followed by its removal event (as
    [chrome.cookies.remove] of a blocked cookie triggers): a cookie the
    set branch blocked stays [blocked], with its [blockedAt] and no
    [removedAt]; any other cookie becomes [removed] with
    [removedAt = now'], keeping its [firstSeen]. *)
Theorem onCookieSet_then_removed (now now' : Z) (s : BgState) (st : SyncStore)
    (cookie : Cookie) :
  exists e,
    map_get (cookieKey cookie)
      (cookieHistory (onCookieRemoved now' (onCookieSet now s st cookie) cookie)) = Some e
    /\ status e = (if shouldBlockCookie st cookie then blocked else removed)
    /\ blockedAt e = (if shouldBlockCookie st cookie then Some now else None)
    /\ removedAt e = (if shouldBlockCookie st cookie then None else Some now')
    /\ firstSeen e = match map_get (cookieKey cookie) (cookieHistory s) with
                     | Some e0 => firstSeen e0 | None => now end.
Proof.
  destruct (onCookieSet_spec now s st cookie)
    as [e [H1 [_ [H3 [H4 [H5 [_ [_ [H8 _]]]]]]]]].
  unfold onCookieRemoved. rewrite H1.
  destruct (shouldBlockCookie st cookie).
  - rewrite H3. simpl. exists e. repeat split; assumption.
  - rewrite H3. simpl. unfold recordRemoval. rewrite H1, H3. simpl.
    eexists. split; [apply map_get_set_same|]. simpl.
    split; [reflexivity|]. split; [exact H4|]. split; [reflexivity | exact H5].
Qed.
